(** * Skateboard previewer: texture mapping, model orientation and camera locomotion

  A shallow embedding of [src/components/SkateboardPreview.tsx].

  JavaScript numbers are modelled as real numbers ([R]): the arithmetic of
  the program is read exactly, without rounding.  Pixel buffers are lists of
  bytes, the scene graph is a tree of [Object3D] nodes, materials live in a
  store indexed by references because several meshes may share one. *)

From Stdlib Require Import Reals Lra Lia ZArith String List RNsatz.
From stdpp Require Import base list strings gmap.

Set Warnings "-register-all,-clear-no-such-hyp".


Open Scope R_scope.

(** ** 1. Pixel buffers *)

Module PixelBuffer.

(** [ImageData.data] is a [Uint8ClampedArray]: reading past the end gives
    [undefined], storing [undefined] stores 0, and a store past the end is
    dropped. *)
Abbreviation Uint8ClampedArray := (list Byte.byte).

Definition arrayGet (data : Uint8ClampedArray) (i : nat) : option Byte.byte :=
  data !! i.

Definition arraySet (data : Uint8ClampedArray) (i : nat) (v : option Byte.byte)
  : Uint8ClampedArray :=
  <[i := default Byte.x00 v]> data.

(** The loop body [[data[i], data[i + 2]] = [data[i + 2], data[i]]]: the
    right-hand side is read first, then the two stores happen in order. *)
Definition swapBR (data : Uint8ClampedArray) (i : nat) : Uint8ClampedArray :=
  let r0 := arrayGet data (i + 2) in
  let r1 := arrayGet data i in
  arraySet (arraySet data i r0) (i + 2) r1.

(** [for (let i = 0; i < data.length; i += 4)], with the iteration count as
    fuel. *)
Fixpoint swapLoop (fuel : nat) (i : nat) (data : Uint8ClampedArray)
  : Uint8ClampedArray :=
  match fuel with
  | O => data
  | S fuel' =>
      if decide (i < length data)%nat
      then swapLoop fuel' (i + 4) (swapBR data i)
      else data
  end.

Definition convertBGRAtoRGBA (data : Uint8ClampedArray) : Uint8ClampedArray :=
  swapLoop (length data) 0 data.

(** Where byte [k] of the converted buffer comes from. *)
Definition source (k : nat) : nat :=
  match (k mod 4)%nat with
  | 0%nat => (k + 2)%nat
  | 2%nat => (k - 2)%nat
  | _ => k
  end.

End PixelBuffer.

(** ** 2. The parts of three.js the component calls

    Vectors, quaternions and matrices follow the three.js classes of the same
    names; a matrix is written by its entries [n11 .. n33] (row, column), the
    order in which [Matrix3.set] and [Matrix4.set] take them. *)

(** [x || 1] on numbers: 0 is falsy. *)
Definition orOne (x : R) : R := if Req_dec_T x 0 then 1 else x.

Module Vector2.

Record t := mk { x : R; y : R }.

End Vector2.

Module Quaternion.

Record t := mk { x : R; y : R; z : R; w : R }.

Definition identity : t := mk 0 0 0 1.

Definition negate (q : t) : t := mk (- x q) (- y q) (- z q) (- w q).

Definition lengthSq (q : t) : R := x q * x q + y q * y q + z q * z q + w q * w q.

(** [multiplyQuaternions(a, b)]: the rotation [b] followed by [a]. *)
Definition multiply (a b : t) : t :=
  mk (x a * w b + w a * x b + y a * z b - z a * y b)
     (y a * w b + w a * y b + z a * x b - x a * z b)
     (z a * w b + w a * z b + x a * y b - y a * x b)
     (w a * w b - x a * x b - y a * y b - z a * z b).

(** [setFromEuler] for the default order XYZ. *)
Definition setFromEuler (ex ey ez : R) : t :=
  let c1 := cos (ex / 2) in
  let c2 := cos (ey / 2) in
  let c3 := cos (ez / 2) in
  let s1 := sin (ex / 2) in
  let s2 := sin (ey / 2) in
  let s3 := sin (ez / 2) in
  mk (s1 * c2 * c3 + c1 * s2 * s3)
     (c1 * s2 * c3 - s1 * c2 * s3)
     (c1 * c2 * s3 + s1 * s2 * c3)
     (c1 * c2 * c3 - s1 * s2 * s3).

End Quaternion.

Module Vector3.

Record t := mk { x : R; y : R; z : R }.

Definition zero : t := mk 0 0 0.

Definition length (v : t) : R := sqrt (x v * x v + y v * y v + z v * z v).

Definition multiplyScalar (v : t) (s : R) : t := mk (x v * s) (y v * s) (z v * s).

Definition divideScalar (v : t) (s : R) : t := multiplyScalar v (1 / s).

(** [normalize() { return this.divideScalar( this.length() || 1 ); }] *)
Definition normalize (v : t) : t := divideScalar v (orOne (length v)).

Definition add (a b : t) : t := mk (x a + x b) (y a + y b) (z a + z b).

Definition sub (a b : t) : t := mk (x a - x b) (y a - y b) (z a - z b).

Definition addScaledVector (p v : t) (s : R) : t :=
  mk (x p + x v * s) (y p + y v * s) (z p + z v * s).

Definition min (a b : t) : t := mk (Rmin (x a) (x b)) (Rmin (y a) (y b)) (Rmin (z a) (z b)).

Definition max (a b : t) : t := mk (Rmax (x a) (x b)) (Rmax (y a) (y b)) (Rmax (z a) (z b)).

(** [applyQuaternion]: [t = 2 * cross(q.xyz, v)], then
    [v + q.w * t + cross(q.xyz, t)]. *)
Definition applyQuaternion (v : t) (q : Quaternion.t) : t :=
  let vx := x v in let vy := y v in let vz := z v in
  let qx := Quaternion.x q in let qy := Quaternion.y q in
  let qz := Quaternion.z q in let qw := Quaternion.w q in
  let tx := 2 * (qy * vz - qz * vy) in
  let ty := 2 * (qz * vx - qx * vz) in
  let tz := 2 * (qx * vy - qy * vx) in
  mk (vx + qw * tx + qy * tz - qz * ty)
     (vy + qw * ty + qz * tx - qx * tz)
     (vz + qw * tz + qx * ty - qy * tx).

(** Assigning one component, as in [cameraForward.y = 0]. *)
Definition setY (v : t) (y' : R) : t := mk (x v) y' (z v).

End Vector3.

Module Matrix3.

Record t := mk {
  n11 : R; n12 : R; n13 : R;
  n21 : R; n22 : R; n23 : R;
  n31 : R; n32 : R; n33 : R }.

Definition identity : t := mk 1 0 0  0 1 0  0 0 1.

Definition multiplyMatrices (a b : t) : t :=
  mk (n11 a * n11 b + n12 a * n21 b + n13 a * n31 b)
     (n11 a * n12 b + n12 a * n22 b + n13 a * n32 b)
     (n11 a * n13 b + n12 a * n23 b + n13 a * n33 b)
     (n21 a * n11 b + n22 a * n21 b + n23 a * n31 b)
     (n21 a * n12 b + n22 a * n22 b + n23 a * n32 b)
     (n21 a * n13 b + n22 a * n23 b + n23 a * n33 b)
     (n31 a * n11 b + n32 a * n21 b + n33 a * n31 b)
     (n31 a * n12 b + n32 a * n22 b + n33 a * n32 b)
     (n31 a * n13 b + n32 a * n23 b + n33 a * n33 b).

(** [this.premultiply(m)] is [m * this]. *)
Definition premultiply (this m : t) : t := multiplyMatrices m this.

Definition makeTranslation (x y : R) : t := mk 1 0 x  0 1 y  0 0 1.

Definition makeRotation (theta : R) : t :=
  let c := cos theta in
  let s := sin theta in
  mk c (- s) 0  s c 0  0 0 1.

Definition makeScale (x y : R) : t := mk x 0 0  0 y 0  0 0 1.

Definition translate (this : t) (tx ty : R) : t :=
  premultiply this (makeTranslation tx ty).

(** [rotate( theta ) { this.premultiply( _m3.makeRotation( - theta ) ); }] *)
Definition rotate (this : t) (theta : R) : t :=
  premultiply this (makeRotation (- theta)).

Definition scale (this : t) (sx sy : R) : t :=
  premultiply this (makeScale sx sy).

Definition setUvTransform (tx ty sx sy rotation cx cy : R) : t :=
  let c := cos rotation in
  let s := sin rotation in
  mk (sx * c) (sx * s) (- sx * (c * cx + s * cy) + cx + tx)
     (- sy * s) (sy * c) (- sy * (- s * cx + c * cy) + cy + ty)
     0 0 1.

(** How a UV coordinate goes through the matrix: the product with the column
    [(u, v, 1)], of which the first two entries are kept. *)
Definition applyToUv (m : t) (uv : Vector2.t) : Vector2.t :=
  Vector2.mk (n11 m * Vector2.x uv + n12 m * Vector2.y uv + n13 m)
             (n21 m * Vector2.x uv + n22 m * Vector2.y uv + n23 m).

End Matrix3.

(** [a > b] as the program tests it. *)
Definition gt (a b : R) : bool := if Rlt_dec b a then true else false.

Module Matrix4.

Record t := mk {
  n11 : R; n12 : R; n13 : R; n14 : R;
  n21 : R; n22 : R; n23 : R; n24 : R;
  n31 : R; n32 : R; n33 : R; n34 : R;
  n41 : R; n42 : R; n43 : R; n44 : R }.

Definition identity : t := mk 1 0 0 0  0 1 0 0  0 0 1 0  0 0 0 1.

Definition multiplyMatrices (a b : t) : t :=
  mk (n11 a * n11 b + n12 a * n21 b + n13 a * n31 b + n14 a * n41 b)
     (n11 a * n12 b + n12 a * n22 b + n13 a * n32 b + n14 a * n42 b)
     (n11 a * n13 b + n12 a * n23 b + n13 a * n33 b + n14 a * n43 b)
     (n11 a * n14 b + n12 a * n24 b + n13 a * n34 b + n14 a * n44 b)
     (n21 a * n11 b + n22 a * n21 b + n23 a * n31 b + n24 a * n41 b)
     (n21 a * n12 b + n22 a * n22 b + n23 a * n32 b + n24 a * n42 b)
     (n21 a * n13 b + n22 a * n23 b + n23 a * n33 b + n24 a * n43 b)
     (n21 a * n14 b + n22 a * n24 b + n23 a * n34 b + n24 a * n44 b)
     (n31 a * n11 b + n32 a * n21 b + n33 a * n31 b + n34 a * n41 b)
     (n31 a * n12 b + n32 a * n22 b + n33 a * n32 b + n34 a * n42 b)
     (n31 a * n13 b + n32 a * n23 b + n33 a * n33 b + n34 a * n43 b)
     (n31 a * n14 b + n32 a * n24 b + n33 a * n34 b + n34 a * n44 b)
     (n41 a * n11 b + n42 a * n21 b + n43 a * n31 b + n44 a * n41 b)
     (n41 a * n12 b + n42 a * n22 b + n43 a * n32 b + n44 a * n42 b)
     (n41 a * n13 b + n42 a * n23 b + n43 a * n33 b + n44 a * n43 b)
     (n41 a * n14 b + n42 a * n24 b + n43 a * n34 b + n44 a * n44 b).

Definition premultiply (this m : t) : t := multiplyMatrices m this.

Definition makeRotationAxis (axis : Vector3.t) (angle : R) : t :=
  let c := cos angle in
  let s := sin angle in
  let t' := 1 - c in
  let x := Vector3.x axis in
  let y := Vector3.y axis in
  let z := Vector3.z axis in
  let tx := t' * x in
  let ty := t' * y in
  mk (tx * x + c) (tx * y - s * z) (tx * z + s * y) 0
     (tx * y + s * z) (ty * y + c) (ty * z - s * x) 0
     (tx * z - s * y) (ty * z + s * x) (t' * z * z + c) 0
     0 0 0 1.

Definition compose (position : Vector3.t) (quaternion : Quaternion.t)
    (scale : Vector3.t) : t :=
  let x := Quaternion.x quaternion in
  let y := Quaternion.y quaternion in
  let z := Quaternion.z quaternion in
  let w := Quaternion.w quaternion in
  let x2 := x + x in let y2 := y + y in let z2 := z + z in
  let xx := x * x2 in let xy := x * y2 in let xz := x * z2 in
  let yy := y * y2 in let yz := y * z2 in let zz := z * z2 in
  let wx := w * x2 in let wy := w * y2 in let wz := w * z2 in
  let sx := Vector3.x scale in
  let sy := Vector3.y scale in
  let sz := Vector3.z scale in
  mk ((1 - (yy + zz)) * sx) ((xy - wz) * sy) ((xz + wy) * sz) (Vector3.x position)
     ((xy + wz) * sx) ((1 - (xx + zz)) * sy) ((yz - wx) * sz) (Vector3.y position)
     ((xz - wy) * sx) ((yz + wx) * sy) ((1 - (xx + yy)) * sz) (Vector3.z position)
     0 0 0 1.

Definition makeRotationFromQuaternion (q : Quaternion.t) : t :=
  compose Vector3.zero q (Vector3.mk 1 1 1).

Definition determinant (m : t) : R :=
  n41 m * (n14 m * n23 m * n32 m - n13 m * n24 m * n32 m
           - n14 m * n22 m * n33 m + n12 m * n24 m * n33 m
           + n13 m * n22 m * n34 m - n12 m * n23 m * n34 m)
  + n42 m * (n11 m * n23 m * n34 m - n11 m * n24 m * n33 m
             + n14 m * n21 m * n33 m - n13 m * n21 m * n34 m
             + n13 m * n24 m * n31 m - n14 m * n23 m * n31 m)
  + n43 m * (n11 m * n24 m * n32 m - n11 m * n22 m * n34 m
             - n14 m * n21 m * n32 m + n12 m * n21 m * n34 m
             + n14 m * n22 m * n31 m - n12 m * n24 m * n31 m)
  + n44 m * (- n13 m * n22 m * n31 m - n11 m * n23 m * n32 m
             + n11 m * n22 m * n33 m + n13 m * n21 m * n32 m
             - n12 m * n21 m * n33 m + n12 m * n23 m * n31 m).

(** [Quaternion.setFromRotationMatrix]: the upper 3x3 of [m] is taken to be a
    pure rotation. *)
Definition setFromRotationMatrix (m : t) : Quaternion.t :=
  let m11 := n11 m in let m12 := n12 m in let m13 := n13 m in
  let m21 := n21 m in let m22 := n22 m in let m23 := n23 m in
  let m31 := n31 m in let m32 := n32 m in let m33 := n33 m in
  let trace := m11 + m22 + m33 in
  if gt trace 0 then
    let s := 0.5 / sqrt (trace + 1.0) in
    Quaternion.mk ((m32 - m23) * s) ((m13 - m31) * s) ((m21 - m12) * s) (0.25 / s)
  else if gt m11 m22 && gt m11 m33 then
    let s := 2.0 * sqrt (1.0 + m11 - m22 - m33) in
    Quaternion.mk (0.25 * s) ((m12 + m21) / s) ((m13 + m31) / s) ((m32 - m23) / s)
  else if gt m22 m33 then
    let s := 2.0 * sqrt (1.0 + m22 - m11 - m33) in
    Quaternion.mk ((m12 + m21) / s) (0.25 * s) ((m23 + m32) / s) ((m13 - m31) / s)
  else
    let s := 2.0 * sqrt (1.0 + m33 - m11 - m22) in
    Quaternion.mk ((m13 + m31) / s) ((m23 + m32) / s) (0.25 * s) ((m21 - m12) / s).

(** [decompose]: the column lengths are the scale (the first negated when the
    determinant is negative), the last column the position, and the rotation
    is read off the matrix with its columns divided by the scale. *)
Definition decompose (m : t) : Vector3.t * Quaternion.t * Vector3.t :=
  let sx0 := Vector3.length (Vector3.mk (n11 m) (n21 m) (n31 m)) in
  let sy := Vector3.length (Vector3.mk (n12 m) (n22 m) (n32 m)) in
  let sz := Vector3.length (Vector3.mk (n13 m) (n23 m) (n33 m)) in
  let det := determinant m in
  let sx := if gt 0 det then - sx0 else sx0 in
  let position := Vector3.mk (n14 m) (n24 m) (n34 m) in
  let invSX := 1 / sx in
  let invSY := 1 / sy in
  let invSZ := 1 / sz in
  let m1 :=
    mk (n11 m * invSX) (n12 m * invSY) (n13 m * invSZ) (n14 m)
       (n21 m * invSX) (n22 m * invSY) (n23 m * invSZ) (n24 m)
       (n31 m * invSX) (n32 m * invSY) (n33 m * invSZ) (n34 m)
       (n41 m) (n42 m) (n43 m) (n44 m) in
  (position, setFromRotationMatrix m1, Vector3.mk sx sy sz).

(** [Vector3.applyMatrix4], with its perspective divide. *)
Definition applyToVector3 (m : t) (v : Vector3.t) : Vector3.t :=
  let x := Vector3.x v in
  let y := Vector3.y v in
  let z := Vector3.z v in
  let w := 1 / (n41 m * x + n42 m * y + n43 m * z + n44 m) in
  Vector3.mk ((n11 m * x + n12 m * y + n13 m * z + n14 m) * w)
             ((n21 m * x + n22 m * y + n23 m * z + n24 m) * w)
             ((n31 m * x + n32 m * y + n33 m * z + n34 m) * w).

(** The upper-left 3x3 block applied to a vector: how the matrix carries
    displacements. *)
Definition applyLinear (m : t) (v : Vector3.t) : Vector3.t :=
  Vector3.mk (n11 m * Vector3.x v + n12 m * Vector3.y v + n13 m * Vector3.z v)
             (n21 m * Vector3.x v + n22 m * Vector3.y v + n23 m * Vector3.z v)
             (n31 m * Vector3.x v + n32 m * Vector3.y v + n33 m * Vector3.z v).

(** The last row is (0, 0, 0, 1), as in every matrix built from positions,
    rotations and scales. *)
Definition affine (m : t) : Prop :=
  n41 m = 0 /\ n42 m = 0 /\ n43 m = 0 /\ n44 m = 1.

End Matrix4.

Module Box3.

(** [Empty] is the box [makeEmpty] leaves, with [min] at plus infinity and
    [max] at minus infinity; every other box here is grown from it. *)
Inductive t :=
| Empty
| Box (min max : Vector3.t).

Definition makeEmpty : t := Empty.

Definition expandByPoint (b : t) (p : Vector3.t) : t :=
  match b with
  | Empty => Box p p
  | Box lo hi => Box (Vector3.min lo p) (Vector3.max hi p)
  end.

Definition setFromPoints (points : list Vector3.t) : t :=
  fold_left expandByPoint points makeEmpty.

Definition union (a b : t) : t :=
  match a, b with
  | Empty, _ => b
  | _, Empty => a
  | Box lo hi, Box lo' hi' => Box (Vector3.min lo lo') (Vector3.max hi hi')
  end.

(** The eight corners are transformed and boxed again. *)
Definition applyMatrix4 (b : t) (m : Matrix4.t) : t :=
  match b with
  | Empty => Empty
  | Box lo hi =>
      let p x y z := Matrix4.applyToVector3 m (Vector3.mk x y z) in
      setFromPoints
        [ p (Vector3.x lo) (Vector3.y lo) (Vector3.z lo);
          p (Vector3.x lo) (Vector3.y lo) (Vector3.z hi);
          p (Vector3.x lo) (Vector3.y hi) (Vector3.z lo);
          p (Vector3.x lo) (Vector3.y hi) (Vector3.z hi);
          p (Vector3.x hi) (Vector3.y lo) (Vector3.z lo);
          p (Vector3.x hi) (Vector3.y lo) (Vector3.z hi);
          p (Vector3.x hi) (Vector3.y hi) (Vector3.z lo);
          p (Vector3.x hi) (Vector3.y hi) (Vector3.z hi) ]
  end.

Definition getSize (b : t) : Vector3.t :=
  match b with
  | Empty => Vector3.zero
  | Box lo hi => Vector3.sub hi lo
  end.

Definition getCenter (b : t) : Vector3.t :=
  match b with
  | Empty => Vector3.zero
  | Box lo hi => Vector3.multiplyScalar (Vector3.add lo hi) 0.5
  end.

(** [translate(offset)]: both corners move by the offset. *)
Definition translate (b : t) (offset : Vector3.t) : t :=
  match b with
  | Empty => Empty
  | Box lo hi => Box (Vector3.add lo offset) (Vector3.add hi offset)
  end.

End Box3.

(** ** 3. The scene graph *)

(** Materials are objects that several meshes may share: meshes hold a
    reference into a store. *)
Abbreviation MaterialRef := positive.

(** An [Object3D] with what the component reads of it.  [isMesh] is
    [obj instanceof THREE.Mesh]; [geometry] holds the vertex positions of an
    object that has a geometry; [material] is read on meshes only, and is a
    single material, as the component's casts take it to be.  The matrices
    three.js caches on the object
    ([matrix], [matrixWorld], the geometry's [boundingBox]) are derived from
    these fields and are recomputed wherever they are used. *)
Inductive Object3D := mkObject3D {
  id : positive;
  name : string;
  isMesh : bool;
  geometry : option (list Vector3.t);
  material : MaterialRef;
  position : Vector3.t;
  quaternion : Quaternion.t;
  scale : Vector3.t;
  children : list Object3D }.

(** [traverse(callback)]: the callback runs on the object, then on each child
    subtree in order.  The callback's effect on the enclosing variables is a
    state transformer. *)
Fixpoint traverse {S : Type} (callback : Object3D -> S -> S)
    (obj : Object3D) (s : S) : S :=
  fold_left (fun s' child => traverse callback child s')
            (children obj) (callback obj s).

(** [String.prototype.includes]. *)
Fixpoint includes (s fragment : string) : bool :=
  if String.prefix fragment s then true
  else match s with
       | EmptyString => false
       | String _ s' => includes s' fragment
       end.

Definition findMeshInModel (model : Object3D) (fragment : string)
  : option Object3D :=
  traverse
    (fun obj targetMesh =>
       if isMesh obj && includes (name obj) fragment
       then Some obj
       else targetMesh)
    model None.

(** The visiting order of [traverse], as a list. *)
Fixpoint preorder (obj : Object3D) : list Object3D :=
  obj :: concat (map preorder (children obj)).

(** The locator as the specification words it: the last drawable node, in
    visiting order, whose name contains the fragment. *)
Definition lastMatch (model : Object3D) (fragment : string) : option Object3D :=
  last (filter (fun obj => isMesh obj && includes (name obj) fragment = true)
               (preorder model)).

(** The test the locator's callback makes. *)
Definition matches (fragment : string) (obj : Object3D) : bool :=
  isMesh obj && includes (name obj) fragment.

(** [s] contains [fragment] as a substring. *)
Definition containsFragment (fragment s : string) : Prop :=
  exists pre post, s = (pre ++ fragment ++ post)%string.

(** The graph of the specification's example, and one where a later match
    overrides an earlier one. *)
Definition leaf (i : positive) (n : string) (mesh : bool) : Object3D :=
  mkObject3D i n mesh (if mesh then Some [] else None) i
             Vector3.zero Quaternion.identity (Vector3.mk 1 1 1) [].

Definition deckGraph : Object3D :=
  mkObject3D 1 "Scene" false None 1%positive
             Vector3.zero Quaternion.identity (Vector3.mk 1 1 1)
             [ leaf 2 "base_mesh" true;
               leaf 3 "top_sticker_L" true;
               leaf 4 "bottom_sticker" true;
               leaf 5 "wheel" true ].

(** ** 4. Mesh dimensions *)

(** [BufferGeometry.computeBoundingBox]: the box of the vertex positions. *)
Definition computeBoundingBox (vertices : list Vector3.t) : Box3.t :=
  Box3.setFromPoints vertices.

(** [updateWorldMatrix(false, false)]: the local matrix is composed afresh and
    multiplied onto the parent's world matrix; an object without a parent
    takes its local matrix. *)
Definition updateWorldMatrix (parentMatrixWorld : option Matrix4.t)
    (obj : Object3D) : Matrix4.t :=
  let matrix := Matrix4.compose (position obj) (quaternion obj) (scale obj) in
  match parentMatrixWorld with
  | None => matrix
  | Some pw => Matrix4.multiplyMatrices pw matrix
  end.

(** [Box3.expandByObject(object)]: the geometry's bounding box, carried to
    world space by the object's world matrix, is joined to the box; then the
    children are visited. *)
Fixpoint expandByObject (parentMatrixWorld : option Matrix4.t)
    (obj : Object3D) (box : Box3.t) : Box3.t :=
  let matrixWorld := updateWorldMatrix parentMatrixWorld obj in
  let box1 :=
    match geometry obj with
    | Some vertices =>
        Box3.union box (Box3.applyMatrix4 (computeBoundingBox vertices) matrixWorld)
    | None => box
    end in
  fold_left (fun b child => expandByObject (Some matrixWorld) child b)
            (children obj) box1.

Definition setFromObject (parentMatrixWorld : option Matrix4.t)
    (obj : Object3D) : Box3.t :=
  expandByObject parentMatrixWorld obj Box3.makeEmpty.

(** [parseFloat(x.toFixed(2))]: the nearest multiple of 1/100, ties away from
    zero. *)
Definition toFixed2 (x : R) : R :=
  if Rlt_dec x 0
  then - (IZR (Int_part (- x * 100 + / 2)) / 100)
  else IZR (Int_part (x * 100 + / 2)) / 100.

Record Dimensions := mkDimensions {
  width : R;
  height : R;
  depth : R;
  center : Vector3.t }.

(** [parentMatrixWorld] is the world matrix held by the mesh's parent, if it
    has one. *)
Definition getMeshDimensions (parentMatrixWorld : option Matrix4.t)
    (mesh : Object3D) : Dimensions :=
  let box := setFromObject parentMatrixWorld mesh in
  let size := Box3.getSize box in
  let center := Box3.getCenter box in
  mkDimensions (toFixed2 (Vector3.x size))
               (toFixed2 (Vector3.y size))
               (toFixed2 (Vector3.z size))
               center.

(** [geometry.translate(v)]: every vertex is moved by [v]. *)
Definition translateVertices (v : Vector3.t) (mesh : Object3D) : Object3D :=
  mkObject3D (id mesh) (name mesh) (isMesh mesh)
             (option_map (map (fun p => Vector3.add p v)) (geometry mesh))
             (material mesh) (position mesh) (quaternion mesh) (scale mesh)
             (children mesh).

(** ** 5. Textures and materials *)

Inductive Wrapping := RepeatWrapping | ClampToEdgeWrapping | MirroredRepeatWrapping.

Inductive ColorSpace := NoColorSpace | SRGBColorSpace | LinearSRGBColorSpace.

Module Texture.

Record t := mk {
  colorSpace : ColorSpace;
  wrapS : Wrapping;
  wrapT : Wrapping;
  matrixAutoUpdate : bool;
  matrix : Matrix3.t;
  offset : Vector2.t;
  repeat : Vector2.t;
  rotation : R;
  center : Vector2.t }.

(** [updateMatrix()]: the matrix is rebuilt from offset, repeat, rotation and
    center. *)
Definition updateMatrix (tex : t) : t :=
  mk (colorSpace tex) (wrapS tex) (wrapT tex) (matrixAutoUpdate tex)
     (Matrix3.setUvTransform (Vector2.x (offset tex)) (Vector2.y (offset tex))
                             (Vector2.x (repeat tex)) (Vector2.y (repeat tex))
                             (rotation tex)
                             (Vector2.x (center tex)) (Vector2.y (center tex)))
     (offset tex) (repeat tex) (rotation tex) (center tex).

(** What the renderer uploads as the UV transform of a map: it first calls
    [updateMatrix] when [matrixAutoUpdate] is set, then reads [matrix]. *)
Definition uvTransform (tex : t) : Matrix3.t :=
  matrix (if matrixAutoUpdate tex then updateMatrix tex else tex).

End Texture.

Module Material.

Record t := mk {
  transparent : bool;
  opacity : R;
  alphaTest : R;
  polygonOffset : bool;
  polygonOffsetFactor : R;
  polygonOffsetUnits : R;
  map : option Texture.t }.

End Material.

(** The texture as the load callback leaves it, for the bottom surface
    ([isBottom]) or the top one. *)
Definition prepareTexture (texture : Texture.t) (isBottom : bool) : Texture.t :=
  let matrix0 := Matrix3.identity in
  let matrix :=
    if isBottom then
      let scaleX := 1.01 in
      let scaleY := 4.1 in
      let rotation := PI / 2 in
      let m1 := Matrix3.translate matrix0 (-0.5) (-0.5) in
      let m2 := Matrix3.rotate m1 rotation in
      let m3 := Matrix3.scale m2 scaleX scaleY in
      Matrix3.translate m3 0.5 0.045
    else
      let scaleX := 1.01 in
      let scaleY := 3.735 in
      let rotation := PI / 2 in
      Matrix3.setUvTransform (0.5 - scaleX / 2) (0.5 - scaleY / 2)
                             scaleX scaleY rotation 0.5 0.5 in
  Texture.mk SRGBColorSpace ClampToEdgeWrapping ClampToEdgeWrapping
             false matrix
             (Texture.offset texture) (Texture.repeat texture)
             (Texture.rotation texture) (Vector2.mk 0.5 0.5).

(** [material.map = texture; material.opacity = 1]. *)
Definition paintMaterial (texture : Texture.t) (m : Material.t) : Material.t :=
  Material.mk (Material.transparent m) 1 (Material.alphaTest m)
              (Material.polygonOffset m) (Material.polygonOffsetFactor m)
              (Material.polygonOffsetUnits m) (Some texture).

(** The sticker set-up of the model loader: transparent, opacity 0,
    alpha test 0.01, polygon offset -1/-1; the map is kept. *)
Definition hideSticker (m : Material.t) : Material.t :=
  Material.mk true 0 0.01 true (-1) (-1) (Material.map m).

(** ** 6. The component's state *)

Module Camera.

Record t := mk { position : Vector3.t; quaternion : Quaternion.t }.

End Camera.

(** The loaded model with the three material references the loader stores on
    it. *)
Record LoadedModel := mkLoadedModel {
  root : Object3D;
  baseMaterial : MaterialRef;
  topStickerMaterial : MaterialRef;
  bottomStickerMaterial : MaterialRef }.

(** [sceneRef] lists the scene's children by object id, [None] standing for
    a scene that is not created yet; [materials] is the store of material
    objects. *)
Record State := mkState {
  sceneRef : option (list positive);
  rendererReady : bool;
  cameraRef : option Camera.t;
  modelRef : option LoadedModel;
  materials : MaterialRef -> Material.t;
  keysPressed : gset string;
  cameraMoveSpeed : R;
  error : option string;
  modelLoading : bool;
  boardDimensions : option (R * R * R) }.

Definition setError (e : option string) (st : State) : State :=
  mkState (sceneRef st) (rendererReady st) (cameraRef st) (modelRef st)
          (materials st) (keysPressed st) (cameraMoveSpeed st) e
          (modelLoading st) (boardDimensions st).

Definition setModelLoading (b : bool) (st : State) : State :=
  mkState (sceneRef st) (rendererReady st) (cameraRef st) (modelRef st)
          (materials st) (keysPressed st) (cameraMoveSpeed st) (error st)
          b (boardDimensions st).

Definition setBoardDimensions (d : option (R * R * R)) (st : State) : State :=
  mkState (sceneRef st) (rendererReady st) (cameraRef st) (modelRef st)
          (materials st) (keysPressed st) (cameraMoveSpeed st) (error st)
          (modelLoading st) d.

Definition setModelRef (m : option LoadedModel) (st : State) : State :=
  mkState (sceneRef st) (rendererReady st) (cameraRef st) m
          (materials st) (keysPressed st) (cameraMoveSpeed st) (error st)
          (modelLoading st) (boardDimensions st).

Definition setSceneRef (sc : option (list positive)) (st : State) : State :=
  mkState sc (rendererReady st) (cameraRef st) (modelRef st)
          (materials st) (keysPressed st) (cameraMoveSpeed st) (error st)
          (modelLoading st) (boardDimensions st).

Definition setCameraRef (c : option Camera.t) (st : State) : State :=
  mkState (sceneRef st) (rendererReady st) c (modelRef st)
          (materials st) (keysPressed st) (cameraMoveSpeed st) (error st)
          (modelLoading st) (boardDimensions st).

Definition setMaterials (ms : MaterialRef -> Material.t) (st : State) : State :=
  mkState (sceneRef st) (rendererReady st) (cameraRef st) (modelRef st)
          ms (keysPressed st) (cameraMoveSpeed st) (error st)
          (modelLoading st) (boardDimensions st).

(** A write through a material reference. *)
Definition updateMaterial (r : MaterialRef) (f : Material.t -> Material.t)
    (st : State) : State :=
  setMaterials (fun r' => if decide (r' = r) then f (materials st r)
                          else materials st r') st.

(** ** 7. Applying a texture *)

(** What the texture loader reports to its callbacks. *)
Inductive TextureLoad :=
| TextureLoaded (texture : Texture.t)
| TextureFailed (err : string).

(** [loadTextureFromUrl(url, material, isBottom)], run to the point where
    the loader has called back.  Releasing the previous map and refreshing
    the scene statistics leave this state as it is. *)
Definition loadTextureFromUrl (outcome : TextureLoad) (material : MaterialRef)
    (isBottom : bool) (st : State) : State :=
  match outcome with
  | TextureLoaded texture =>
      updateMaterial material (paintMaterial (prepareTexture texture isBottom)) st
  | TextureFailed err =>
      setError (Some ("纹理加载失败: " ++ err)%string) st
  end.

(** How reading the dropped file ended, and, for a BGRA source, how decoding
    it through a canvas ended. *)
Inductive FileRead := ReadFailed | ReadEmpty | ReadDone.

Inductive Decode := ImageFailed | NoCanvasContext | Decoded.

(** [loadBottomTexture(file)]: both the BGRA branch and the plain branch end
    in [loadTextureFromUrl(..., bottomStickerMaterial, true)]. *)
Definition loadBottomTexture (isBGRAFormat : bool) (read : FileRead)
    (decode : Decode) (outcome : TextureLoad) (st : State) : State :=
  match modelRef st with
  | None => setError (Some "请先加载3D模型"%string) st
  | Some model =>
      match read with
      | ReadFailed => setError (Some "文件读取出错"%string) st
      | ReadEmpty => setError (Some "文件读取失败"%string) st
      | ReadDone =>
          if isBGRAFormat then
            match decode with
            | ImageFailed => setError (Some "BGRA图片加载失败"%string) st
            | NoCanvasContext => setError (Some "Canvas创建失败"%string) st
            | Decoded =>
                loadTextureFromUrl outcome (bottomStickerMaterial model) true st
            end
          else loadTextureFromUrl outcome (bottomStickerMaterial model) true st
      end
  end.

(** [loadTopTexture(file, index)]: [upscaled] tells whether the optional
    upscaling pass, taken on the WebGPU renderer only, delivered an image;
    when it does not, nothing is applied. *)
Definition loadTopTexture (isBGRAFormat isWebGPU upscaled : bool)
    (read : FileRead) (decode : Decode) (outcome : TextureLoad)
    (st : State) : State :=
  match modelRef st with
  | None => setError (Some "请先加载3D模型"%string) st
  | Some model =>
      match read with
      | ReadFailed => setError (Some "文件读取出错"%string) st
      | ReadEmpty => setError (Some "文件读取失败"%string) st
      | ReadDone =>
          if isBGRAFormat then
            match decode with
            | ImageFailed => setError (Some "BGRA图片加载失败"%string) st
            | NoCanvasContext => setError (Some "Canvas创建失败"%string) st
            | Decoded =>
                loadTextureFromUrl outcome (topStickerMaterial model) false st
            end
          else if isWebGPU then
            if upscaled
            then loadTextureFromUrl outcome (topStickerMaterial model) false st
            else st
          else loadTextureFromUrl outcome (topStickerMaterial model) false st
      end
  end.

(** ** 8. Loading the model *)

(** What the model loader reports: the scene it built, together with the
    world matrix cached on the parent of a node at that moment (three.js
    reads it when it measures the base mesh), or a failure message. *)
Inductive GLTFLoad :=
| GLTFLoaded (scene : Object3D) (parentMatrixWorld : option Matrix4.t)
| GLTFFailed (message : string).

Definition missingMeshMessage : string :=
  "模型中未找到base/top_sticker/bottom_sticker Mesh，请检查模型命名".

(** [model.scale.set(1, 1, 1); model.position.set(0, 1, 0);
    model.rotation.y = Math.PI / 4], on the scene root the loader creates,
    whose Euler angles start at zero. *)
Definition placeModel (model : Object3D) : Object3D :=
  mkObject3D (id model) (name model) (isMesh model) (geometry model)
             (material model)
             (Vector3.mk 0 1 0)
             (Quaternion.setFromEuler 0 (PI / 4) 0)
             (Vector3.mk 1 1 1)
             (children model).

(** [scene.remove(object)]: the first occurrence leaves the children. *)
Fixpoint sceneRemove (object : positive) (children : list positive)
  : list positive :=
  match children with
  | [] => []
  | c :: rest => if decide (c = object) then rest
                 else c :: sceneRemove object rest
  end.

(** [scene.add(object)]: the object is appended. *)
Definition sceneAdd (object : positive) (children : list positive)
  : list positive :=
  children ++ [object].

(** The body of the [try] block once the loader has answered: either the
    message of the error thrown, or the state the block ends in. *)
Definition loadSkateboardModel_try (outcome : GLTFLoad) (st : State)
  : string + State :=
  match outcome with
  | GLTFFailed message => inl message
  | GLTFLoaded scene parentMatrixWorld =>
      let model := placeModel scene in
      match findMeshInModel model "base",
            findMeshInModel model "top_sticker",
            findMeshInModel model "bottom_sticker" with
      | Some baseMesh, Some topStickerMesh, Some bottomStickerMesh =>
          let dimensions := getMeshDimensions parentMatrixWorld baseMesh in
          let st1 :=
            setBoardDimensions
              (Some (width dimensions, height dimensions, depth dimensions)) st in
          let st2 := updateMaterial (material topStickerMesh) hideSticker st1 in
          let st3 := updateMaterial (material bottomStickerMesh) hideSticker st2 in
          let st4 :=
            setModelRef
              (Some (mkLoadedModel model (material baseMesh)
                                   (material topStickerMesh)
                                   (material bottomStickerMesh))) st3 in
          inr (setSceneRef (option_map (sceneAdd (id model)) (sceneRef st4)) st4)
      | _, _, _ => inl missingMeshMessage
      end
  end.

Definition loadSkateboardModel (outcome : GLTFLoad) (st : State) : State :=
  match sceneRef st with
  | Some sceneChildren =>
      if rendererReady st then
        let st1 :=
          match modelRef st with
          | Some old =>
              setBoardDimensions None
                (setModelRef None
                   (setSceneRef (Some (sceneRemove (id (root old)) sceneChildren)) st))
          | None => st
          end in
        let st2 := setError None (setModelLoading true st1) in
        let st3 :=
          match loadSkateboardModel_try outcome st2 with
          | inr st' => st'
          | inl message =>
              setError (Some ("模型加载失败: " ++ message)%string) st2
          end in
        setModelLoading false st3
      else setError (Some "场景未初始化"%string) st
  | None => setError (Some "场景未初始化"%string) st
  end.

(** ** 9. Flipping the model *)

Inductive Axis := AxisX | AxisY | AxisZ.

Definition setTransform (obj : Object3D) (p : Vector3.t) (q : Quaternion.t)
    (s : Vector3.t) : Object3D :=
  mkObject3D (id obj) (name obj) (isMesh obj) (geometry obj) (material obj)
             p q s (children obj).

Definition setPosition (obj : Object3D) (p : Vector3.t) : Object3D :=
  setTransform obj p (quaternion obj) (scale obj).

(** [Object3D.applyMatrix4(matrix)]: the local matrix is composed from
    position, quaternion and scale (automatic matrix updates are on, the
    default), multiplied from the left by [matrix], and decomposed back into
    the three. *)
Definition applyMatrix4 (obj : Object3D) (matrix : Matrix4.t) : Object3D :=
  let local := Matrix4.compose (position obj) (quaternion obj) (scale obj) in
  let '(p, q, s) := Matrix4.decompose (Matrix4.premultiply local matrix) in
  setTransform obj p q s.

Definition flipObject (axis : Axis) (model : Object3D) : Object3D :=
  let rotateAngle := PI in
  let localAxis :=
    match axis with
    | AxisX => Vector3.mk 1 0 0
    | AxisY => Vector3.mk 0 1 0
    | AxisZ => Vector3.mk 0 0 1
    end in
  let worldAxis :=
    Vector3.normalize (Vector3.applyQuaternion localAxis (quaternion model)) in
  let rotationMatrix := Matrix4.makeRotationAxis worldAxis rotateAngle in
  let modelPosition := position model in
  let model1 := setPosition model Vector3.zero in
  let model2 := applyMatrix4 model1 rotationMatrix in
  setPosition model2 modelPosition.

Definition flipModel (axis : Axis) (st : State) : State :=
  match modelRef st with
  | None => setError (Some "请先加载滑板模型，再执行翻转操作"%string) st
  | Some m =>
      setError None
        (setModelRef
           (Some (mkLoadedModel (flipObject axis (root m)) (baseMaterial m)
                                (topStickerMaterial m) (bottomStickerMaterial m)))
           st)
  end.

(** The unit vector of a local axis, and the quaternion of the half turn
    about it. *)
Definition localAxisOf (axis : Axis) : Vector3.t :=
  match axis with
  | AxisX => Vector3.mk 1 0 0
  | AxisY => Vector3.mk 0 1 0
  | AxisZ => Vector3.mk 0 0 1
  end.

Definition halfTurn (axis : Axis) : Quaternion.t :=
  Quaternion.mk (Vector3.x (localAxisOf axis)) (Vector3.y (localAxisOf axis))
                (Vector3.z (localAxisOf axis)) 0.

(** The transform of a model as the loader places it and as flips keep it:
    a unit quaternion and scale 1. *)
Definition wellPlaced (model : Object3D) : Prop :=
  Quaternion.lengthSq (quaternion model) = 1 /\
  scale model = Vector3.mk 1 1 1.

(** ** 10. Camera locomotion *)

(** [keys.has(k)]. *)
Definition has (keys : gset string) (k : string) : bool :=
  bool_decide (k ∈ keys).

(** The camera's forward and left vectors as the tick uses them: taken from
    the orientation, normalized, flattened to the horizontal plane and
    normalized again. *)
Definition cameraForward (camera : Camera.t) : Vector3.t :=
  let v := Vector3.normalize
             (Vector3.applyQuaternion (Vector3.mk 0 0 (-1)) (Camera.quaternion camera)) in
  Vector3.normalize (Vector3.setY v 0).

Definition cameraLeft (camera : Camera.t) : Vector3.t :=
  let v := Vector3.normalize
             (Vector3.applyQuaternion (Vector3.mk (-1) 0 0) (Camera.quaternion camera)) in
  Vector3.normalize (Vector3.setY v 0).

(** The four key tests of the tick, in program order. *)
Definition moveCamera (keys : gset string) (speed : R) (camera : Camera.t)
  : Camera.t :=
  let forward := cameraForward camera in
  let left := cameraLeft camera in
  let p0 := Camera.position camera in
  let p1 := if has keys "w" then Vector3.addScaledVector p0 forward speed else p0 in
  let p2 := if has keys "s" then Vector3.addScaledVector p1 forward (- speed) else p1 in
  let p3 := if has keys "a" then Vector3.addScaledVector p2 left speed else p2 in
  let p4 := if has keys "d" then Vector3.addScaledVector p3 left (- speed) else p3 in
  Camera.mk p4 (Camera.quaternion camera).

(** One tick of [animate].  [controlsUpdate] is the orbit control's update,
    which runs first on the camera.  The frame statistics, the slow turn of
    the model's Euler angle and the drawing itself do not touch the camera. *)
Definition animate (controlsUpdate : Camera.t -> Camera.t) (st : State) : State :=
  if rendererReady st then
    match cameraRef st with
    | None => st
    | Some camera0 =>
        let camera := controlsUpdate camera0 in
        setCameraRef
          (Some (moveCamera (keysPressed st) (cameraMoveSpeed st) camera)) st
    end
  else st.

(** ** 11. Sample values *)

Definition plainMaterial : Material.t := Material.mk false 1 0 false 0 0 None.

(** A texture as the loader hands it over. *)
Definition freshTexture : Texture.t :=
  Texture.mk NoColorSpace ClampToEdgeWrapping ClampToEdgeWrapping true
             Matrix3.identity (Vector2.mk 0 0) (Vector2.mk 1 1) 0 (Vector2.mk 0 0).

(** The state [initScene] leaves: three lights in the scene, the camera at
    (0, 2, 5), no model. *)
Definition sceneReady : State :=
  mkState (Some [101; 102; 103]%positive) true
          (Some (Camera.mk (Vector3.mk 0 2 5) Quaternion.identity))
          None (fun _ => plainMaterial) ∅ 0.05 None false None.

Definition deckLoaded : State :=
  setModelRef (Some (mkLoadedModel deckGraph 2 3 4)) sceneReady.

(** The initial scene with the forward and left keys held. *)
Definition walking : State :=
  mkState (sceneRef sceneReady) (rendererReady sceneReady)
          (cameraRef sceneReady) (modelRef sceneReady) (materials sceneReady)
          {["w"; "a"]} (cameraMoveSpeed sceneReady) (error sceneReady)
          (modelLoading sceneReady) (boardDimensions sceneReady).

(** A camera pitched up by a quarter turn, its view straight up, with the
    forward key held. *)
Definition lookingUp : Quaternion.t := Quaternion.mk (/ sqrt 2) 0 0 (/ sqrt 2).

Definition gazingUp : State :=
  mkState (sceneRef sceneReady) (rendererReady sceneReady)
          (Some (Camera.mk (Vector3.mk 0 2 5) lookingUp))
          (modelRef sceneReady) (materials sceneReady)
          {["w"]} (cameraMoveSpeed sceneReady) (error sceneReady)
          (modelLoading sceneReady) (boardDimensions sceneReady).

(** A model file without a bottom sticker surface. *)
Definition deckWithoutBottom : Object3D :=
  mkObject3D 1 "Scene" false None 1%positive
             Vector3.zero Quaternion.identity (Vector3.mk 1 1 1)
             [ leaf 2 "base_mesh" true;
               leaf 3 "top_sticker_L" true;
               leaf 5 "wheel" true ].

(** The three name fragments the loader looks for. *)
Definition requiredFragments : list string :=
  ["base"; "top_sticker"; "bottom_sticker"]%string.

(** No mesh of the model has a name containing the fragment. *)
Definition lacksMesh (model : Object3D) (fragment : string) : Prop :=
  Forall (fun o => ~ (isMesh o = true /\ containsFragment fragment (name o)))
         (preorder model).

(** A mesh with two vertices, scaled by 2. *)
Definition scaledMesh : Object3D :=
  mkObject3D 2 "base_mesh" true
             (Some [Vector3.mk 0 0 0; Vector3.mk 1 1 1]) 2%positive
             Vector3.zero Quaternion.identity (Vector3.mk 2 2 2) [].

(** The same mesh without the scale. *)
Definition unitMesh : Object3D :=
  mkObject3D 2 "base_mesh" true
             (Some [Vector3.mk 0 0 0; Vector3.mk 1 1 1]) 2%positive
             Vector3.zero Quaternion.identity (Vector3.mk 1 1 1) [].

(** The parent's world matrix, when there is one, is affine. *)
Definition affineParent (parentMatrixWorld : option Matrix4.t) : Prop :=
  match parentMatrixWorld with
  | Some pw => Matrix4.affine pw
  | None => True
  end.

(** ** 12. Keyboard state *)

Definition setKeysPressed (keys : gset string) (st : State) : State :=
  mkState (sceneRef st) (rendererReady st) (cameraRef st) (modelRef st)
          (materials st) keys (cameraMoveSpeed st) (error st)
          (modelLoading st) (boardDimensions st).

Definition setRendererReady (ready : bool) (st : State) : State :=
  mkState (sceneRef st) ready (cameraRef st) (modelRef st)
          (materials st) (keysPressed st) (cameraMoveSpeed st) (error st)
          (modelLoading st) (boardDimensions st).

(** The keys the two listeners react to. *)
Definition movementKeys : list string :=
  ["w"; "a"; "s"; "d"; "W"; "A"; "S"; "D"]%string.

(** [toLowerCase] on the letters A to Z; the listeners apply it to the
    one-letter keys above only. *)
Definition lowerAscii (c : Ascii.ascii) : Ascii.ascii :=
  let n := Ascii.nat_of_ascii c in
  if (65 <=? n)%nat && (n <=? 90)%nat then Ascii.ascii_of_nat (n + 32) else c.

Fixpoint toLowerCase (s : string) : string :=
  match s with
  | EmptyString => EmptyString
  | String c rest => String (lowerAscii c) (toLowerCase rest)
  end.

Definition handleKeyDown (key : string) (st : State) : State :=
  if bool_decide (key ∈ movementKeys)
  then setKeysPressed ({[toLowerCase key]} ∪ keysPressed st) st
  else st.

Definition handleKeyUp (key : string) (st : State) : State :=
  if bool_decide (key ∈ movementKeys)
  then setKeysPressed (keysPressed st ∖ {[toLowerCase key]}) st
  else st.

(** The four lower-case movement keys. *)
Definition lowerMovementKeys : gset string := {["w"; "a"; "s"; "d"]}.

(** ** 13. Tearing the scene down *)

(** The part of [initScene]'s [cleanup] that this state sees: the model
    reference and the board dimensions are dropped, the renderer is no
    longer ready, the held keys are forgotten.  The scene object itself is
    kept. *)
Definition cleanup (st : State) : State :=
  setKeysPressed ∅
    (setBoardDimensions None
       (setRendererReady false
          (setModelRef None st))).

(** ** 14. The frame-time monitor *)

(** A number that may have left the reals: a quotient by zero. *)
Inductive JSNumber :=
| Finite (r : R)
| PositiveInfinity.

(** [Math.round]: the nearest integer, halves going up. *)
Definition round (x : R) : R := IZR (Int_part (x + / 2)).

Module PerformanceMonitor.

Record t := mk {
  frameTimes : list R;
  lastTime : R;
  fps : JSNumber;
  renderTime : R }.

(** [frameTimes.reduce((a, b) => a + b, 0)]. *)
Definition total (samples : list R) : R := fold_left Rplus samples 0.

(** [update()], with the clock reading [now]; the second component is the
    object returned.  A sum of zero makes the quotient infinite. *)
Definition update (now : R) (pm : t) : t * (JSNumber * R) :=
  let delta := now - lastTime pm in
  let pushed := frameTimes pm ++ [delta] in
  let samples := if (60 <? length pushed)%nat then tail pushed else pushed in
  let avgFrameTime := total samples / INR (length samples) in
  let fps' := if Req_dec_T avgFrameTime 0 then PositiveInfinity
              else Finite (round (1000 / avgFrameTime)) in
  (mk samples now fps' delta, (fps', round (delta * 100) / 100)).

Definition reset (now : R) : t := mk [] now (Finite 60) 0.

End PerformanceMonitor.

(** ** 15. Moving an object *)

(** [object.position.add(v)]. *)
Definition movePosition (v : Vector3.t) (obj : Object3D) : Object3D :=
  setPosition obj (Vector3.add (position obj) v).

(** The matrix with [d] added to its translation column. *)
Definition shiftMatrix (d : Vector3.t) (m : Matrix4.t) : Matrix4.t :=
  Matrix4.mk
    (Matrix4.n11 m) (Matrix4.n12 m) (Matrix4.n13 m) (Matrix4.n14 m + Vector3.x d)
    (Matrix4.n21 m) (Matrix4.n22 m) (Matrix4.n23 m) (Matrix4.n24 m + Vector3.y d)
    (Matrix4.n31 m) (Matrix4.n32 m) (Matrix4.n33 m) (Matrix4.n34 m + Vector3.z d)
    (Matrix4.n41 m) (Matrix4.n42 m) (Matrix4.n43 m) (Matrix4.n44 m).

(** How far the measured box moves when an object below [parentMatrixWorld]
    is moved by [v]. *)
Definition worldDisplacement (parentMatrixWorld : option Matrix4.t)
    (v : Vector3.t) : Vector3.t :=
  match parentMatrixWorld with
  | Some pw => Matrix4.applyLinear pw v
  | None => v
  end.

(** A box whose corners are in order on every axis. *)
Definition orderedBox (b : Box3.t) : Prop :=
  match b with
  | Box3.Empty => True
  | Box3.Box lo hi =>
      Vector3.x lo <= Vector3.x hi /\
      Vector3.y lo <= Vector3.y hi /\
      Vector3.z lo <= Vector3.z hi
  end.

(** Some mesh of the model has a name containing the fragment. *)
Definition hasMesh (model : Object3D) (fragment : string) : Prop :=
  Exists (fun o => isMesh o = true /\ containsFragment fragment (name o))
         (preorder model).

(** A model whose only mesh carries all three names. *)
Definition oneMeshDeck : Object3D :=
  mkObject3D 1 "Scene" false None 1%positive
             Vector3.zero Quaternion.identity (Vector3.mk 1 1 1)
             [ leaf 2 "base_top_sticker_bottom_sticker" true ].

(** The body of [expandByObject] once the object's world matrix is
    known. *)
Definition expandFrom (matrixWorld : Matrix4.t)
    (geometry : option (list Vector3.t)) (children : list Object3D)
    (box : Box3.t) : Box3.t :=
  fold_left (fun b child => expandByObject (Some matrixWorld) child b)
            children
            match geometry with
            | Some vertices =>
                Box3.union box
                  (Box3.applyMatrix4 (computeBoundingBox vertices) matrixWorld)
            | None => box
            end.

(** * Properties *)

(** ** Pixel buffers *)

Section PixelBufferFacts.
Import PixelBuffer.

Lemma swapBR_length data i : length (swapBR data i) = length data.
Proof. unfold swapBR, arraySet. by rewrite !length_insert. Qed.

Lemma swapLoop_length fuel : forall i data,
  length (swapLoop fuel i data) = length data.
Proof.
  induction fuel as [|fuel IH]; intros i data; simpl; [done|].
  case_decide; [|done]. by rewrite IH, swapBR_length.
Qed.

(** One pixel that lies wholly inside the buffer. *)
Lemma swapBR_lookup data i k :
  (i + 3 < length data)%nat ->
  swapBR data i !! k =
    if decide (k = i) then data !! (i + 2)%nat
    else if decide (k = i + 2)%nat then data !! i
    else data !! k.
Proof.
  intros Hi. unfold swapBR, arraySet, arrayGet.
  destruct (lookup_lt_is_Some_2 data i) as [a Ha]; [lia|].
  destruct (lookup_lt_is_Some_2 data (i + 2)) as [b Hb]; [lia|].
  rewrite Ha, Hb. simpl.
  repeat case_decide; subst.
  - rewrite list_lookup_insert_ne by lia.
    rewrite list_lookup_insert_eq by lia. done.
  - rewrite list_lookup_insert_eq by (rewrite length_insert; lia). done.
  - rewrite !list_lookup_insert_ne by lia. done.
Qed.

Lemma source_cases k :
  ((k mod 4 = 0)%nat /\ source k = (k + 2)%nat) \/
  ((k mod 4 = 1)%nat /\ source k = k) \/
  ((k mod 4 = 2)%nat /\ source k = (k - 2)%nat) \/
  ((k mod 4 = 3)%nat /\ source k = k).
Proof.
  unfold source.
  assert (H : (k mod 4 < 4)%nat) by (apply Nat.mod_upper_bound; lia).
  destruct (k mod 4)%nat as [|[|[|[|n]]]]; auto; lia.
Qed.

Ltac mod4 k :=
  let Hdiv := fresh "Hdiv" in
  let Hrem := fresh "Hrem" in
  pose proof (Nat.div_mod_eq k 4) as Hdiv;
  pose proof (Nat.mod_upper_bound k 4 ltac:(lia)) as Hrem.

Lemma source_involutive k : source (source k) = k.
Proof.
  mod4 k.
  destruct (source_cases k) as [[H1 E1]|[[H1 E1]|[[H1 E1]|[H1 E1]]]];
    rewrite E1;
    [mod4 (k + 2)%nat; destruct (source_cases (k + 2))
       as [[H2 E2]|[[H2 E2]|[[H2 E2]|[H2 E2]]]]
    | lia
    | mod4 (k - 2)%nat; destruct (source_cases (k - 2))
       as [[H2 E2]|[[H2 E2]|[[H2 E2]|[H2 E2]]]]
    | lia ]; lia.
Qed.

(** The loop invariant: bytes below [i] are final, bytes from [i] on are
    still to be exchanged. *)
Lemma swapLoop_lookup fuel : forall i (data : list Byte.byte) k,
  (length data mod 4 = 0)%nat -> (i mod 4 = 0)%nat ->
  (length data <= i + 4 * fuel)%nat ->
  swapLoop fuel i data !! k =
    if decide (k < i)%nat then data !! k else data !! source k.
Proof.
  induction fuel as [|fuel IH]; intros i data k Hlen Hi Hfuel; simpl.
  - case_decide; [done|].
    rewrite (lookup_ge_None_2 data k) by lia.
    rewrite lookup_ge_None_2; [done|].
    mod4 k; mod4 i; mod4 (length data).
    destruct (source_cases k) as [[H1 E1]|[[H1 E1]|[[H1 E1]|[H1 E1]]]]; lia.
  - mod4 k; mod4 i; mod4 (length data).
    case_decide as Hlt.
    + assert (Hin : (i + 3 < length data)%nat) by lia.
      mod4 (i + 4)%nat.
      rewrite IH; [|by rewrite swapBR_length|lia|rewrite swapBR_length; lia].
      rewrite !swapBR_lookup by done.
      destruct (source_cases k) as [[H1 E1]|[[H1 E1]|[[H1 E1]|[H1 E1]]]];
        repeat case_decide; subst; try lia; try done;
        try (f_equal; lia).
    + case_decide; [done|].
      rewrite (lookup_ge_None_2 data k) by lia.
      rewrite lookup_ge_None_2; [done|].
      destruct (source_cases k) as [[H1 E1]|[[H1 E1]|[[H1 E1]|[H1 E1]]]]; lia.
Qed.

Lemma convertBGRAtoRGBA_lookup (data : list Byte.byte) k :
  (length data mod 4 = 0)%nat ->
  convertBGRAtoRGBA data !! k = data !! source k.
Proof.
  intros Hlen. unfold convertBGRAtoRGBA.
  rewrite swapLoop_lookup by (done || lia).
  case_decide; [lia|done].
Qed.

(** The fuel given by [convertBGRAtoRGBA] is enough: the loop always leaves
    through its condition, so more fuel changes nothing. *)
Lemma swapLoop_fuel fuel : forall fuel' i (data : list Byte.byte),
  (length data <= i + 4 * fuel)%nat -> (length data <= i + 4 * fuel')%nat ->
  swapLoop fuel i data = swapLoop fuel' i data.
Proof.
  induction fuel as [|fuel IH]; intros [|fuel'] i data H H'; simpl; try done.
  - case_decide; [lia|done].
  - case_decide; [lia|done].
  - case_decide; [|done].
    apply IH; rewrite swapBR_length; lia.
Qed.

Example convertBGRAtoRGBA_one_pixel :
  convertBGRAtoRGBA [Byte.x0a; Byte.x14; Byte.x1e; Byte.xff]
  = [Byte.x1e; Byte.x14; Byte.x0a; Byte.xff].
Proof. reflexivity. Qed.

(** C6. On a buffer whose length is a multiple of 4 the conversion exchanges
    the bytes at offsets 0 and 2 of every pixel, keeps those at offsets 1 and
    3, and applying it twice gives back the original buffer. *)
Theorem convertBGRAtoRGBA_involution (data : list Byte.byte) :
  (length data mod 4 = 0)%nat ->
  (forall p, (4 * p + 3 < length data)%nat ->
     convertBGRAtoRGBA data !! (4 * p)%nat = data !! (4 * p + 2)%nat /\
     convertBGRAtoRGBA data !! (4 * p + 1)%nat = data !! (4 * p + 1)%nat /\
     convertBGRAtoRGBA data !! (4 * p + 2)%nat = data !! (4 * p)%nat /\
     convertBGRAtoRGBA data !! (4 * p + 3)%nat = data !! (4 * p + 3)%nat) /\
  convertBGRAtoRGBA (convertBGRAtoRGBA data) = data.
Proof.
  intros Hlen. split.
  - intros p Hp. rewrite !convertBGRAtoRGBA_lookup by done.
    repeat split; f_equal.
    + mod4 (4 * p)%nat.
      destruct (source_cases (4 * p)) as [[H E]|[[H E]|[[H E]|[H E]]]]; lia.
    + mod4 (4 * p + 1)%nat.
      destruct (source_cases (4 * p + 1)) as [[H E]|[[H E]|[[H E]|[H E]]]]; lia.
    + mod4 (4 * p + 2)%nat.
      destruct (source_cases (4 * p + 2)) as [[H E]|[[H E]|[[H E]|[H E]]]]; lia.
    + mod4 (4 * p + 3)%nat.
      destruct (source_cases (4 * p + 3)) as [[H E]|[[H E]|[[H E]|[H E]]]]; lia.
  - apply list_eq. intros k.
    assert (Hlen' : (length (convertBGRAtoRGBA data) mod 4 = 0)%nat).
    { unfold convertBGRAtoRGBA. by rewrite swapLoop_length. }
    rewrite convertBGRAtoRGBA_lookup by done.
    rewrite convertBGRAtoRGBA_lookup by done.
    by rewrite source_involutive.
Qed.

Lemma convertBGRAtoRGBA_involution_witness :
  let data := [Byte.x01; Byte.x02; Byte.x03; Byte.x04;
               Byte.x05; Byte.x06; Byte.x07; Byte.x08] in
  (length data mod 4 = 0)%nat /\
  convertBGRAtoRGBA (convertBGRAtoRGBA data) = data.
Proof.
  split; [reflexivity|].
  apply (convertBGRAtoRGBA_involution
           [Byte.x01; Byte.x02; Byte.x03; Byte.x04;
            Byte.x05; Byte.x06; Byte.x07; Byte.x08]).
  reflexivity.
Defined.

End PixelBufferFacts.

(** ** The surface locator *)

Section Object3D_induction.

Variable P : Object3D -> Prop.
Hypothesis step : forall i n m g mat p q s cs,
  Forall P cs -> P (mkObject3D i n m g mat p q s cs).

Fixpoint Object3D_tree_ind (obj : Object3D) : P obj :=
  match obj with
  | mkObject3D i n m g mat p q s cs =>
      step i n m g mat p q s cs
        ((fix all (l : list Object3D) : Forall P l :=
            match l with
            | [] => @List.Forall_nil Object3D P
            | c :: l' => @List.Forall_cons Object3D P c l' (Object3D_tree_ind c) (all l')
            end) cs)
  end.

End Object3D_induction.

Section LocatorFacts.

Context {S : Type} (callback : Object3D -> S -> S).

Lemma traverse_preorder (obj : Object3D) : forall s,
  traverse callback obj s = fold_left (fun s' o => callback o s') (preorder obj) s.
Proof using Type.
  induction obj as [i n m g mat p q sc cs IH] using Object3D_tree_ind.
  intros s. simpl. generalize (callback (mkObject3D i n m g mat p q sc cs) s).
  clear s. induction IH as [|c cs Hc _ IHcs]; intros s; simpl; [done|].
  rewrite fold_left_app, <- Hc. apply IHcs.
Qed.

End LocatorFacts.

(** Running "keep the latest match" over a list. *)
Lemma fold_latest_match (p : Object3D -> bool) (l : list Object3D) : forall s,
  fold_left (fun s' o => if p o then Some o else s') l s =
    match last (filter (fun o => p o = true) l) with
    | Some o => Some o
    | None => s
    end.
Proof.
  induction l as [|a l IH]; intros s; simpl; [done|].
  rewrite IH. rewrite filter_cons.
  destruct (p a) eqn:Hp.
  - rewrite decide_True by done.
    rewrite last_cons. by destruct (last _).
  - rewrite decide_False by done. done.
Qed.

Lemma findMeshInModel_lastMatch (model : Object3D) (fragment : string) :
  findMeshInModel model fragment = lastMatch model fragment.
Proof.
  unfold findMeshInModel, lastMatch.
  rewrite traverse_preorder.
  rewrite (fold_latest_match (matches fragment)).
  unfold matches. by destruct (last _).
Qed.

Lemma last_filter_split (p : Object3D -> bool) (l : list Object3D) :
  match last (filter (fun o => p o = true) l) with
  | Some o => exists l1 l2, l = l1 ++ o :: l2 /\ p o = true /\
                            Forall (fun o' => p o' = false) l2
  | None => Forall (fun o' => p o' = false) l
  end.
Proof.
  induction l as [|a l IH]; simpl; [constructor|].
  rewrite filter_cons. destruct (p a) eqn:Hp.
  - rewrite decide_True by done. rewrite last_cons.
    destruct (last _) as [o|].
    + destruct IH as (l1 & l2 & -> & Ho & Hl2).
      exists (a :: l1), l2. done.
    + exists [], l. done.
  - rewrite decide_False by done.
    destruct (last _) as [o|].
    + destruct IH as (l1 & l2 & -> & Ho & Hl2).
      exists (a :: l1), l2. done.
    + by constructor.
Qed.

(** [includes] is the substring test. *)
Lemma append_cons (a : Ascii.ascii) (s t : string) :
  (String a s ++ t)%string = String a (s ++ t)%string.
Proof. reflexivity. Qed.

Lemma append_empty (t : string) : (EmptyString ++ t)%string = t.
Proof. reflexivity. Qed.

Lemma prefix_true_iff (f s : string) :
  String.prefix f s = true <-> exists post, s = (f ++ post)%string.
Proof.
  revert f. induction s as [|b s IH]; intros [|a f]; simpl.
  - split; [intros _; by exists ""%string|done].
  - split; [done|intros [post H]; discriminate].
  - split; [intros _; by exists (String b s)|done].
  - destruct (Ascii.ascii_dec a b) as [->|Hne].
    + rewrite IH. split; intros [post H]; exists post;
        rewrite append_cons in *; congruence.
    + split; [done|]. intros [post H]. rewrite append_cons in H. congruence.
Qed.

Lemma includes_true_iff (s f : string) :
  includes s f = true <-> exists pre post, s = (pre ++ f ++ post)%string.
Proof.
  induction s as [|a s IH]; cbn [includes].
  - destruct (String.prefix f "") eqn:Hp.
    + split; [intros _|done].
      apply prefix_true_iff in Hp as [post Hp]. by exists ""%string, post.
    + split; [done|]. intros (pre & post & H).
      destruct pre; [|discriminate]. rewrite append_empty in H.
      assert (String.prefix f "" = true) by (apply prefix_true_iff; eauto).
      congruence.
  - destruct (String.prefix f (String a s)) eqn:Hp.
    + split; [intros _|done].
      apply prefix_true_iff in Hp as [post Hp]. by exists ""%string, post.
    + rewrite IH. split.
      * intros (pre & post & ->). by exists (String a pre), post.
      * intros (pre & post & H). destruct pre as [|b pre].
        -- rewrite append_empty in H.
           assert (String.prefix f (String a s) = true)
             by (apply prefix_true_iff; eauto).
           congruence.
        -- exists pre, post. rewrite append_cons in H. congruence.
Qed.

Lemma matches_true_iff fragment obj :
  matches fragment obj = true <->
  isMesh obj = true /\ containsFragment fragment (name obj).
Proof.
  unfold matches, containsFragment.
  rewrite andb_true_iff, includes_true_iff. done.
Qed.

Lemma matches_false_iff fragment obj :
  matches fragment obj = false <->
  ~ (isMesh obj = true /\ containsFragment fragment (name obj)).
Proof.
  rewrite <- matches_true_iff. destruct (matches fragment obj); split; done.
Qed.

(** C5. The locator returns the last mesh, in depth-first visiting order,
    whose name contains the fragment: every mesh visited after it fails the
    test; and it returns nothing exactly when no mesh's name contains the
    fragment, in particular when no node's name does. *)
Theorem findMeshInModel_last_match (model : Object3D) (fragment : string) :
  findMeshInModel model fragment = lastMatch model fragment /\
  match findMeshInModel model fragment with
  | Some o =>
      exists earlier later,
        preorder model = earlier ++ o :: later /\
        isMesh o = true /\ containsFragment fragment (name o) /\
        Forall (fun o' => ~ (isMesh o' = true /\
                             containsFragment fragment (name o'))) later
  | None =>
      Forall (fun o' => ~ (isMesh o' = true /\
                           containsFragment fragment (name o')))
             (preorder model)
  end /\
  (Forall (fun o' => ~ containsFragment fragment (name o')) (preorder model) ->
   findMeshInModel model fragment = None).
Proof.
  split; [apply findMeshInModel_lastMatch|].
  assert (Hsplit := last_filter_split (matches fragment) (preorder model)).
  split.
  - rewrite findMeshInModel_lastMatch. unfold lastMatch.
    fold (matches fragment) in *.
    change (fun obj => isMesh obj && includes (name obj) fragment = true)
      with (fun o => matches fragment o = true).
    destruct (last _) as [o|].
    + destruct Hsplit as (l1 & l2 & -> & Ho & Hl2).
      exists l1, l2. apply matches_true_iff in Ho as [Hm Hc].
      repeat split; try done.
      eapply Forall_impl; [exact Hl2|]. intros o'. apply matches_false_iff.
    + eapply Forall_impl; [exact Hsplit|]. intros o'. apply matches_false_iff.
  - intros Hnone. rewrite findMeshInModel_lastMatch. unfold lastMatch.
    change (fun obj => isMesh obj && includes (name obj) fragment = true)
      with (fun o => matches fragment o = true).
    destruct (last _) as [o|] eqn:Hlast; [|done].
    destruct Hsplit as (l1 & l2 & Heq & Ho & _).
    apply matches_true_iff in Ho as [_ Hc].
    rewrite Heq in Hnone. apply Forall_app in Hnone as [_ Hnone].
    apply Forall_cons in Hnone as [Hnone _]. done.
Qed.

Example findMeshInModel_deck_top :
  name <$> findMeshInModel deckGraph "top_sticker" = Some "top_sticker_L"%string.
Proof. reflexivity. Qed.

Example findMeshInModel_deck_missing :
  findMeshInModel deckGraph "truck" = None.
Proof. reflexivity. Qed.

Example findMeshInModel_later_overrides :
  id <$> findMeshInModel
           (mkObject3D 1 "Scene" false None 1%positive
              Vector3.zero Quaternion.identity (Vector3.mk 1 1 1)
              [ mkObject3D 2 "top_sticker_L" true (Some []) 2%positive
                  Vector3.zero Quaternion.identity (Vector3.mk 1 1 1)
                  [ leaf 3 "top_sticker_inner" true ];
                leaf 4 "top_sticker_group" false;
                leaf 5 "wheel" true ])
           "top_sticker"
  = Some 3%positive.
Proof. reflexivity. Qed.

(** ** UV transforms *)

Lemma cos_neg_PI2 : cos (- (PI / 2)) = 0.
Proof. rewrite cos_neg. apply cos_PI2. Qed.

Lemma sin_neg_PI2 : sin (- (PI / 2)) = -1.
Proof. rewrite sin_neg, sin_PI2. lra. Qed.

(** The four steps of the bottom branch, in the order the program takes
    them. *)
Lemma prepareTexture_bottom_matrix (texture : Texture.t) :
  Texture.matrix (prepareTexture texture true) =
    Matrix3.translate
      (Matrix3.scale
         (Matrix3.rotate
            (Matrix3.translate Matrix3.identity (-0.5) (-0.5))
            (PI / 2))
         1.01 4.1)
      0.5 0.045.
Proof. reflexivity. Qed.

(** The three in-place operations, entry by entry. *)
Lemma translate_entries a b c d e f g h i tx ty :
  Matrix3.translate (Matrix3.mk a b c d e f g h i) tx ty
  = Matrix3.mk (a + tx * g) (b + tx * h) (c + tx * i)
               (d + ty * g) (e + ty * h) (f + ty * i)
               g h i.
Proof.
  unfold Matrix3.translate, Matrix3.premultiply, Matrix3.multiplyMatrices,
    Matrix3.makeTranslation. simpl. f_equal; ring.
Qed.

Lemma rotate_quarter_entries a b c d e f g h i :
  Matrix3.rotate (Matrix3.mk a b c d e f g h i) (PI / 2)
  = Matrix3.mk d e f (- a) (- b) (- c) g h i.
Proof.
  unfold Matrix3.rotate, Matrix3.premultiply, Matrix3.multiplyMatrices,
    Matrix3.makeRotation. simpl. rewrite cos_neg_PI2, sin_neg_PI2.
  f_equal; ring.
Qed.

Lemma scale_entries a b c d e f g h i sx sy :
  Matrix3.scale (Matrix3.mk a b c d e f g h i) sx sy
  = Matrix3.mk (sx * a) (sx * b) (sx * c) (sy * d) (sy * e) (sy * f) g h i.
Proof.
  unfold Matrix3.scale, Matrix3.premultiply, Matrix3.multiplyMatrices,
    Matrix3.makeScale. simpl. f_equal; ring.
Qed.

Lemma bottom_matrix_entries :
  Matrix3.translate
    (Matrix3.scale
       (Matrix3.rotate
          (Matrix3.translate Matrix3.identity (-0.5) (-0.5))
          (PI / 2))
       1.01 4.1)
    0.5 0.045
  = Matrix3.mk 0 1.01 (-0.005)  (-4.1) 0 2.095  0 0 1.
Proof.
  unfold Matrix3.identity.
  rewrite translate_entries, rotate_quarter_entries, scale_entries,
    translate_entries.
  f_equal; lra.
Qed.

(** The renderer reads the matrix as the callback left it: automatic
    updates are off, so the later [center.set(0.5, 0.5)] does not rebuild
    it. *)
Lemma prepareTexture_uvTransform (texture : Texture.t) (isBottom : bool) :
  Texture.uvTransform (prepareTexture texture isBottom) =
  Texture.matrix (prepareTexture texture isBottom).
Proof. reflexivity. Qed.

Lemma loadTextureFromUrl_map texture material isBottom st :
  Material.map
    (materials (loadTextureFromUrl (TextureLoaded texture) material isBottom st)
               material)
  = Some (prepareTexture texture isBottom).
Proof.
  simpl. rewrite decide_True by done. reflexivity.
Qed.

(** C1. Whenever a texture is applied to the bottom sticker surface, the UV
    transform the renderer receives is the identity followed, in this order,
    by translate (-0.5, -0.5), rotate by pi/2, scale (1.01, 4.1) and
    translate (0.5, 0.045); its entries are those of that product. *)
Theorem bottom_uvTransform_composition (isBGRAFormat : bool)
    (texture : Texture.t) (model : LoadedModel) (st : State) :
  modelRef st = Some model ->
  exists tex,
    Material.map
      (materials
         (loadBottomTexture isBGRAFormat ReadDone Decoded (TextureLoaded texture) st)
         (bottomStickerMaterial model)) = Some tex /\
    Texture.uvTransform tex =
      Matrix3.translate
        (Matrix3.scale
           (Matrix3.rotate
              (Matrix3.translate Matrix3.identity (-0.5) (-0.5))
              (PI / 2))
           1.01 4.1)
        0.5 0.045 /\
    Texture.uvTransform tex = Matrix3.mk 0 1.01 (-0.005)  (-4.1) 0 2.095  0 0 1.
Proof.
  intros Hmodel. exists (prepareTexture texture true).
  split; [|split].
  - unfold loadBottomTexture. rewrite Hmodel.
    destruct isBGRAFormat; apply loadTextureFromUrl_map.
  - rewrite prepareTexture_uvTransform. apply prepareTexture_bottom_matrix.
  - rewrite prepareTexture_uvTransform, prepareTexture_bottom_matrix.
    apply bottom_matrix_entries.
Qed.

Lemma bottom_uvTransform_composition_witness :
  modelRef deckLoaded = Some (mkLoadedModel deckGraph 2 3 4) /\
  exists tex,
    Material.map
      (materials
         (loadBottomTexture false ReadDone Decoded (TextureLoaded freshTexture)
                            deckLoaded)
         4%positive) = Some tex /\
    Texture.uvTransform tex = Matrix3.mk 0 1.01 (-0.005)  (-4.1) 0 2.095  0 0 1.
Proof.
  split; [reflexivity|].
  destruct (bottom_uvTransform_composition false freshTexture
              (mkLoadedModel deckGraph 2 3 4) deckLoaded)
    as (tex & Hmap & _ & Hentries); [reflexivity|].
  exists tex. split; [exact Hmap|exact Hentries].
Defined.

(** The order is not a matter of style: scaling before rotating gives
    another matrix. *)
Lemma bottom_order_matters :
  Matrix3.translate
    (Matrix3.rotate
       (Matrix3.scale
          (Matrix3.translate Matrix3.identity (-0.5) (-0.5))
          1.01 4.1)
       (PI / 2))
    0.5 0.045
  <> Matrix3.mk 0 1.01 (-0.005)  (-4.1) 0 2.095  0 0 1.
Proof.
  unfold Matrix3.identity.
  rewrite translate_entries, scale_entries, rotate_quarter_entries,
    translate_entries.
  intros H. injection H. intros. lra.
Qed.

(** [setUvTransform] rotates and scales about the pivot and then adds the
    offset, so the pivot lands on itself moved by the offset. *)
Lemma setUvTransform_pivot (tx ty sx sy rotation cx cy : R) :
  Matrix3.applyToUv (Matrix3.setUvTransform tx ty sx sy rotation cx cy)
                    (Vector2.mk cx cy)
  = Vector2.mk (cx + tx) (cy + ty).
Proof.
  unfold Matrix3.applyToUv, Matrix3.setUvTransform. simpl.
  f_equal; ring.
Qed.

Lemma prepareTexture_top_matrix (texture : Texture.t) :
  Texture.matrix (prepareTexture texture false) =
    Matrix3.setUvTransform (0.5 - 1.01 / 2) (0.5 - 3.735 / 2)
                           1.01 3.735 (PI / 2) 0.5 0.5.
Proof. reflexivity. Qed.

(** C2, as stated, fails: the top-surface transform does not leave
    (0.5, 0.5) where it is. *)
Lemma top_uvTransform_moves_pivot :
  Matrix3.applyToUv
    (Texture.uvTransform (prepareTexture freshTexture false))
    (Vector2.mk 0.5 0.5)
  <> Vector2.mk 0.5 0.5.
Proof.
  rewrite prepareTexture_uvTransform, prepareTexture_top_matrix,
    setUvTransform_pivot.
  intros H. injection H. intros. lra.
Qed.

(** C2, amended.  The top-surface transform is
    [setUvTransform(0.5 - 1.01/2, 0.5 - 3.735/2, 1.01, 3.735, pi/2, 0.5, 0.5)]
    and it sends the pivot (0.5, 0.5) to the pivot moved by the offset, that
    is to (0.495, -0.8675). *)
Theorem top_uvTransform_pivot_image (texture : Texture.t)
    (material : MaterialRef) (st : State) :
  exists tex,
    Material.map
      (materials (loadTextureFromUrl (TextureLoaded texture) material false st)
                 material) = Some tex /\
    Texture.uvTransform tex =
      Matrix3.setUvTransform (0.5 - 1.01 / 2) (0.5 - 3.735 / 2)
                             1.01 3.735 (PI / 2) 0.5 0.5 /\
    Matrix3.applyToUv (Texture.uvTransform tex) (Vector2.mk 0.5 0.5)
      = Vector2.mk (0.5 + (0.5 - 1.01 / 2)) (0.5 + (0.5 - 3.735 / 2)) /\
    Matrix3.applyToUv (Texture.uvTransform tex) (Vector2.mk 0.5 0.5)
      = Vector2.mk 0.495 (-0.8675).
Proof.
  exists (prepareTexture texture false).
  rewrite loadTextureFromUrl_map, prepareTexture_uvTransform,
    prepareTexture_top_matrix, setUvTransform_pivot.
  repeat split. f_equal; lra.
Qed.

(** ** Camera locomotion *)

Lemma orOne_neq_0 (x : R) : orOne x <> 0.
Proof. unfold orOne. destruct (Req_dec_T x 0); lra. Qed.

Lemma orOne_0 : orOne 0 = 1.
Proof. unfold orOne. destruct (Req_dec_T 0 0); lra. Qed.

Lemma orOne_nonzero (x : R) : x <> 0 -> orOne x = x.
Proof. intros H. unfold orOne. destruct (Req_dec_T x 0); [lra|done]. Qed.

Lemma has_true (keys : gset string) (k : string) : k ∈ keys -> has keys k = true.
Proof. intros H. unfold has. by apply bool_decide_eq_true. Qed.

Lemma has_false (keys : gset string) (k : string) : k ∉ keys -> has keys k = false.
Proof. intros H. unfold has. by apply bool_decide_eq_false. Qed.

Lemma Vector3_eq (a b : Vector3.t) :
  Vector3.x a = Vector3.x b -> Vector3.y a = Vector3.y b ->
  Vector3.z a = Vector3.z b -> a = b.
Proof. destruct a, b. simpl. congruence. Qed.

Lemma normalize_zero : Vector3.normalize Vector3.zero = Vector3.zero.
Proof.
  unfold Vector3.normalize, Vector3.divideScalar, Vector3.multiplyScalar,
    Vector3.zero. simpl. f_equal; ring.
Qed.

Lemma addScaledVector_zero (p : Vector3.t) (s : R) :
  Vector3.addScaledVector p Vector3.zero s = p.
Proof. apply Vector3_eq; simpl; ring. Qed.

(** Two successive steps from [p] add up as vectors. *)
Lemma two_steps_add (p f l : Vector3.t) (s : R) :
  Vector3.sub (Vector3.addScaledVector (Vector3.addScaledVector p f s) l s) p
  = Vector3.add (Vector3.multiplyScalar f s) (Vector3.multiplyScalar l s).
Proof. apply Vector3_eq; simpl; ring. Qed.

(** C3. In a tick with [w] and [a] held (and neither [s] nor [d]) the camera
    moves by speed times the flattened, renormalized forward vector plus
    speed times the flattened, renormalized left vector; the two steps add
    up as vectors and nothing rescales their sum. *)
Theorem animate_forward_left (controlsUpdate : Camera.t -> Camera.t)
    (st : State) (camera0 : Camera.t) :
  rendererReady st = true ->
  cameraRef st = Some camera0 ->
  "w"%string ∈ keysPressed st -> "a"%string ∈ keysPressed st ->
  "s"%string ∉ keysPressed st -> "d"%string ∉ keysPressed st ->
  let camera := controlsUpdate camera0 in
  let speed := cameraMoveSpeed st in
  let forward :=
    Vector3.normalize
      (Vector3.setY
         (Vector3.normalize
            (Vector3.applyQuaternion (Vector3.mk 0 0 (-1))
                                     (Camera.quaternion camera))) 0) in
  let left :=
    Vector3.normalize
      (Vector3.setY
         (Vector3.normalize
            (Vector3.applyQuaternion (Vector3.mk (-1) 0 0)
                                     (Camera.quaternion camera))) 0) in
  let sum := Vector3.add (Vector3.multiplyScalar forward speed)
                         (Vector3.multiplyScalar left speed) in
  exists camera',
    cameraRef (animate controlsUpdate st) = Some camera' /\
    Camera.quaternion camera' = Camera.quaternion camera /\
    Vector3.sub (Camera.position camera') (Camera.position camera) = sum /\
    Vector3.length (Vector3.sub (Camera.position camera') (Camera.position camera))
      = Vector3.length sum.
Proof.
  intros Hready Hcam Hw Ha Hs Hd camera speed forward left sum.
  unfold animate. rewrite Hready, Hcam.
  eexists. split; [reflexivity|].
  unfold moveCamera. cbn [Camera.position Camera.quaternion].
  rewrite (has_true _ _ Hw), (has_true _ _ Ha),
    (has_false _ _ Hs), (has_false _ _ Hd).
  split; [reflexivity|]. split.
  - apply two_steps_add.
  - f_equal. apply two_steps_add.
Qed.

Ltac key_fact := apply (bool_decide_unpack _); vm_compute; exact I.

Lemma animate_forward_left_witness :
  exists camera',
    cameraRef (animate (fun c => c) walking) = Some camera' /\
    Vector3.sub (Camera.position camera') (Vector3.mk 0 2 5) =
      Vector3.add
        (Vector3.multiplyScalar
           (cameraForward (Camera.mk (Vector3.mk 0 2 5) Quaternion.identity)) 0.05)
        (Vector3.multiplyScalar
           (cameraLeft (Camera.mk (Vector3.mk 0 2 5) Quaternion.identity)) 0.05).
Proof.
  destruct (animate_forward_left (fun c => c) walking
              (Camera.mk (Vector3.mk 0 2 5) Quaternion.identity))
    as (camera' & Href & _ & Hsum & _);
    [reflexivity | reflexivity | key_fact | key_fact | key_fact | key_fact |].
  exists camera'. split; [exact Href|exact Hsum].
Defined.

Lemma length_unit (v : Vector3.t) :
  Vector3.x v * Vector3.x v + Vector3.y v * Vector3.y v
    + Vector3.z v * Vector3.z v = 1 ->
  Vector3.length v = 1.
Proof. intros H. unfold Vector3.length. rewrite H. apply sqrt_1. Qed.

Lemma normalize_unit (v : Vector3.t) :
  Vector3.x v * Vector3.x v + Vector3.y v * Vector3.y v
    + Vector3.z v * Vector3.z v = 1 ->
  Vector3.normalize v = v.
Proof.
  intros H. unfold Vector3.normalize, Vector3.divideScalar.
  rewrite (length_unit v H), orOne_nonzero by lra.
  apply Vector3_eq; simpl; field.
Qed.

(** With the camera level, the flattened vectors are the camera's own. *)
Lemma cameraForward_identity (p : Vector3.t) :
  cameraForward (Camera.mk p Quaternion.identity) = Vector3.mk 0 0 (-1).
Proof.
  unfold cameraForward. cbn [Camera.quaternion].
  assert (E : Vector3.applyQuaternion (Vector3.mk 0 0 (-1)) Quaternion.identity
              = Vector3.mk 0 0 (-1)) by (apply Vector3_eq; simpl; ring).
  rewrite E. rewrite (normalize_unit (Vector3.mk 0 0 (-1))) by (simpl; ring).
  unfold Vector3.setY. simpl. apply normalize_unit. simpl. ring.
Qed.

Lemma cameraLeft_identity (p : Vector3.t) :
  cameraLeft (Camera.mk p Quaternion.identity) = Vector3.mk (-1) 0 0.
Proof.
  unfold cameraLeft. cbn [Camera.quaternion].
  assert (E : Vector3.applyQuaternion (Vector3.mk (-1) 0 0) Quaternion.identity
              = Vector3.mk (-1) 0 0) by (apply Vector3_eq; simpl; ring).
  rewrite E. rewrite (normalize_unit (Vector3.mk (-1) 0 0)) by (simpl; ring).
  unfold Vector3.setY. simpl. apply normalize_unit. simpl. ring.
Qed.

(** From the initial camera, one tick with [w] and [a] moves by
    (-0.05, 0, -0.05): a step of length [0.05 * sqrt 2], not 0.05. *)
Example animate_walking_diagonal :
  cameraRef (animate (fun c => c) walking)
  = Some (Camera.mk (Vector3.mk (-0.05) 2 4.95) Quaternion.identity).
Proof.
  unfold animate, walking, sceneReady. cbn [rendererReady cameraRef keysPressed
    cameraMoveSpeed setCameraRef sceneRef modelRef materials error modelLoading
    boardDimensions].
  unfold setCameraRef, moveCamera.
  rewrite cameraForward_identity, cameraLeft_identity.
  replace (has {["w"; "a"]} "w") with true by (symmetry; apply has_true; key_fact).
  replace (has {["w"; "a"]} "a") with true by (symmetry; apply has_true; key_fact).
  replace (has {["w"; "a"]} "s") with false by (symmetry; apply has_false; key_fact).
  replace (has {["w"; "a"]} "d") with false by (symmetry; apply has_false; key_fact).
  cbn [Camera.position Camera.quaternion rendererReady cameraRef keysPressed
    cameraMoveSpeed sceneRef modelRef materials error modelLoading boardDimensions].
  do 3 f_equal. apply Vector3_eq; simpl; lra.
Qed.

(** A vector without horizontal part is flattened to zero. *)
Lemma flatten_vertical (v : Vector3.t) :
  Vector3.x v = 0 -> Vector3.z v = 0 ->
  Vector3.setY (Vector3.normalize v) 0 = Vector3.zero.
Proof.
  intros Hx Hz. apply Vector3_eq; simpl; rewrite ?Hx, ?Hz; ring.
Qed.

Lemma length_zero : Vector3.length Vector3.zero = 0.
Proof.
  unfold Vector3.length, Vector3.zero. simpl.
  replace (0 * 0 + 0 * 0 + 0 * 0) with 0 by ring. apply sqrt_0.
Qed.

(** With a zero forward vector the forward and back keys move nothing. *)
Lemma moveCamera_zero_forward (keys : gset string) (speed : R) (camera : Camera.t) :
  cameraForward camera = Vector3.zero ->
  "a"%string ∉ keys -> "d"%string ∉ keys ->
  moveCamera keys speed camera = camera.
Proof.
  intros Hf Ha Hd. unfold moveCamera.
  rewrite Hf, (has_false _ _ Ha), (has_false _ _ Hd).
  rewrite !addScaledVector_zero.
  destruct (has keys "w"), (has keys "s"); by destruct camera.
Qed.

(** C10. When the view direction is exactly vertical, flattening the forward
    vector leaves the zero vector; its renormalization divides by 1, not by
    0, and gives the zero vector again; so the forward and back keys move
    the camera by nothing and its position is the one it had. *)
Theorem animate_vertical_view (controlsUpdate : Camera.t -> Camera.t)
    (st : State) (camera0 : Camera.t) :
  rendererReady st = true ->
  cameraRef st = Some camera0 ->
  let camera := controlsUpdate camera0 in
  let view := Vector3.applyQuaternion (Vector3.mk 0 0 (-1))
                                      (Camera.quaternion camera) in
  Vector3.x view = 0 -> Vector3.z view = 0 ->
  "a"%string ∉ keysPressed st -> "d"%string ∉ keysPressed st ->
  let flattened := Vector3.setY (Vector3.normalize view) 0 in
  flattened = Vector3.zero /\
  orOne (Vector3.length flattened) = 1 /\
  Vector3.normalize flattened = Vector3.zero /\
  cameraForward camera = Vector3.zero /\
  cameraRef (animate controlsUpdate st) = Some camera.
Proof.
  intros Hready Hcam camera view Hx Hz Ha Hd flattened.
  assert (Hflat : flattened = Vector3.zero) by (by apply flatten_vertical).
  assert (Hforward : cameraForward camera = Vector3.zero).
  { unfold cameraForward. fold view. fold flattened.
    rewrite Hflat. apply normalize_zero. }
  repeat split.
  - exact Hflat.
  - rewrite Hflat, length_zero. apply orOne_0.
  - rewrite Hflat. apply normalize_zero.
  - exact Hforward.
  - unfold animate. rewrite Hready, Hcam. unfold setCameraRef.
    cbn [cameraRef]. f_equal. by apply moveCamera_zero_forward.
Qed.

Lemma inv_sqrt2_sqr : / sqrt 2 * / sqrt 2 = / 2.
Proof. rewrite <- Rinv_mult, sqrt_sqrt by lra. reflexivity. Qed.

Lemma animate_vertical_view_witness :
  cameraForward (Camera.mk (Vector3.mk 0 2 5) lookingUp) = Vector3.zero /\
  cameraRef (animate (fun c => c) gazingUp)
  = Some (Camera.mk (Vector3.mk 0 2 5) lookingUp).
Proof.
  pose proof inv_sqrt2_sqr as Hs.
  destruct (animate_vertical_view (fun c => c) gazingUp
              (Camera.mk (Vector3.mk 0 2 5) lookingUp))
    as (_ & _ & _ & Hforward & Hcam);
    [ reflexivity | reflexivity | simpl; ring | simpl; lra
    | key_fact | key_fact | ].
  split; [exact Hforward|exact Hcam].
Defined.

(** ** Loading the model *)

Lemma findMeshInModel_None_iff (model : Object3D) (fragment : string) :
  findMeshInModel model fragment = None <-> lacksMesh model fragment.
Proof.
  rewrite findMeshInModel_lastMatch. unfold lastMatch, lacksMesh.
  change (fun obj => isMesh obj && includes (name obj) fragment = true)
    with (fun o => matches fragment o = true).
  assert (Hsplit := last_filter_split (matches fragment) (preorder model)).
  destruct (last _) as [o|].
  - split; [done|]. intros Hall.
    destruct Hsplit as (l1 & l2 & Heq & Ho & _).
    rewrite Heq in Hall. apply Forall_app in Hall as [_ Hall].
    apply Forall_cons in Hall as [Hall _].
    apply matches_true_iff in Ho. done.
  - split; [|done]. intros _.
    eapply Forall_impl; [exact Hsplit|]. intros o'. apply matches_false_iff.
Qed.

(** Placing the model changes neither names nor the tree. *)
Lemma lacksMesh_placeModel (scene : Object3D) (fragment : string) :
  lacksMesh (placeModel scene) fragment <-> lacksMesh scene fragment.
Proof.
  unfold lacksMesh. destruct scene as [i n m g mat p q sc cs]. simpl.
  rewrite !Forall_cons. simpl. done.
Qed.

Lemma sceneRemove_not_elem (x y : positive) (l : list positive) :
  x ∉ l -> x ∉ sceneRemove y l.
Proof.
  induction l as [|c l IH]; simpl; [done|].
  intros Hx. apply not_elem_of_cons in Hx as [Hne Hx].
  case_decide; [done|].
  apply not_elem_of_cons. split; [done|]. by apply IH.
Qed.

Lemma loadSkateboardModel_try_missing (scene : Object3D)
    (parentMatrixWorld : option Matrix4.t) (fragment : string) (st : State) :
  fragment ∈ requiredFragments ->
  lacksMesh scene fragment ->
  loadSkateboardModel_try (GLTFLoaded scene parentMatrixWorld) st
  = inl missingMeshMessage.
Proof.
  intros Hfrag Hlack.
  apply lacksMesh_placeModel in Hlack.
  apply findMeshInModel_None_iff in Hlack.
  unfold loadSkateboardModel_try, requiredFragments in *.
  repeat (apply elem_of_cons in Hfrag as [->|Hfrag]);
    [| | |by apply elem_of_nil in Hfrag];
    rewrite Hlack;
    repeat match goal with
           | |- context [findMeshInModel ?m ?f] =>
               destruct (findMeshInModel m f)
           end; reflexivity.
Qed.

(** C8. When the loaded model lacks a mesh for one of the three required
    names, the load ends with the error message naming the missing meshes,
    the model reference is null, the new model is not among the scene's
    children (which are the former ones less the replaced model), and the
    loading flag is cleared. *)
Theorem loadSkateboardModel_missing_mesh (scene : Object3D)
    (parentMatrixWorld : option Matrix4.t) (fragment : string)
    (st : State) (sceneChildren : list positive) :
  sceneRef st = Some sceneChildren ->
  rendererReady st = true ->
  id scene ∉ sceneChildren ->
  fragment ∈ requiredFragments ->
  lacksMesh scene fragment ->
  let st' := loadSkateboardModel (GLTFLoaded scene parentMatrixWorld) st in
  error st' = Some ("模型加载失败: " ++ missingMeshMessage)%string /\
  modelRef st' = None /\
  (exists children',
     sceneRef st' = Some children' /\ (id scene ∉ children') /\
     children' = match modelRef st with
                 | Some old => sceneRemove (id (root old)) sceneChildren
                 | None => sceneChildren
                 end) /\
  modelLoading st' = false.
Proof.
  intros Hscene Hready Hfresh Hfrag Hlack st'. subst st'.
  unfold loadSkateboardModel. rewrite Hscene, Hready.
  rewrite (loadSkateboardModel_try_missing _ _ fragment) by done.
  destruct (modelRef st) as [old|] eqn:Hold; simpl.
  - repeat split. eexists. repeat split. by apply sceneRemove_not_elem.
  - rewrite Hold, Hscene. repeat split. eexists. repeat split. done.
Qed.

Lemma loadSkateboardModel_missing_mesh_witness :
  error (loadSkateboardModel (GLTFLoaded deckWithoutBottom None) sceneReady)
    = Some ("模型加载失败: " ++ missingMeshMessage)%string /\
  modelRef (loadSkateboardModel (GLTFLoaded deckWithoutBottom None) sceneReady)
    = None /\
  sceneRef (loadSkateboardModel (GLTFLoaded deckWithoutBottom None) sceneReady)
    = Some [101; 102; 103]%positive.
Proof.
  destruct (loadSkateboardModel_missing_mesh deckWithoutBottom None
              "bottom_sticker" sceneReady [101; 102; 103]%positive)
    as (Herr & Href & (children' & Hsc & _ & Heq) & _).
  - reflexivity.
  - reflexivity.
  - key_fact.
  - key_fact.
  - apply findMeshInModel_None_iff. reflexivity.
  - split; [exact Herr|]. split; [exact Href|].
    rewrite Hsc, Heq. reflexivity.
Defined.

(** A load that ends without an error message went all the way: the scene
    was ready, the loader delivered a model, and the three meshes were
    found. *)
Lemma loadSkateboardModel_success (outcome : GLTFLoad) (st : State) :
  error (loadSkateboardModel outcome st) = None ->
  exists scene parentMatrixWorld baseMesh topStickerMesh bottomStickerMesh st0,
    outcome = GLTFLoaded scene parentMatrixWorld /\
    findMeshInModel (placeModel scene) "base" = Some baseMesh /\
    findMeshInModel (placeModel scene) "top_sticker" = Some topStickerMesh /\
    findMeshInModel (placeModel scene) "bottom_sticker" = Some bottomStickerMesh /\
    modelRef (loadSkateboardModel outcome st) =
      Some (mkLoadedModel (placeModel scene) (material baseMesh)
                          (material topStickerMesh)
                          (material bottomStickerMesh)) /\
    materials (loadSkateboardModel outcome st) =
      materials (updateMaterial (material bottomStickerMesh) hideSticker
                   (updateMaterial (material topStickerMesh) hideSticker st0)).
Proof.
  unfold loadSkateboardModel.
  destruct (sceneRef st) as [sceneChildren|]; [|discriminate].
  destruct (rendererReady st); [|discriminate].
  destruct outcome as [scene pmw|message]; [|discriminate].
  unfold loadSkateboardModel_try.
  destruct (findMeshInModel (placeModel scene) "base") as [b|] eqn:Hb;
    [|discriminate].
  destruct (findMeshInModel (placeModel scene) "top_sticker") as [t|] eqn:Ht;
    [|discriminate].
  destruct (findMeshInModel (placeModel scene) "bottom_sticker") as [u|] eqn:Hu;
    [|discriminate].
  intros _. eexists scene, pmw, b, t, u, _.
  repeat split; try done; reflexivity.
Qed.

Lemma updateMaterial_same r f st :
  materials (updateMaterial r f st) r = f (materials st r).
Proof. simpl. by rewrite decide_True. Qed.

Lemma hideSticker_twice m : hideSticker (hideSticker m) = hideSticker m.
Proof. reflexivity. Qed.

(** After the two sticker set-ups, both materials are hidden, whether they
    are one object or two. *)
Lemma stickers_hidden (top bottom : MaterialRef) (st : State) :
  let st' := updateMaterial bottom hideSticker
               (updateMaterial top hideSticker st) in
  materials st' top = hideSticker (materials st top) /\
  materials st' bottom = hideSticker (materials st bottom).
Proof.
  simpl. rewrite (decide_True (P := bottom = bottom)) by done.
  destruct (decide (top = bottom)) as [->|Hne].
  - rewrite (decide_True (P := bottom = bottom)) by done. done.
  - rewrite (decide_False (P := bottom = top)) by done.
    rewrite (decide_True (P := top = top)) by done. done.
Qed.

(** C9. After a load that succeeded, the top and bottom sticker materials
    are transparent with opacity 0; and once a texture has been applied to
    either of them, that material's opacity is 1. *)
Theorem sticker_opacity (outcome : GLTFLoad) (st : State) :
  error (loadSkateboardModel outcome st) = None ->
  let st' := loadSkateboardModel outcome st in
  exists model,
    modelRef st' = Some model /\
    Material.opacity (materials st' (topStickerMaterial model)) = 0 /\
    Material.transparent (materials st' (topStickerMaterial model)) = true /\
    Material.opacity (materials st' (bottomStickerMaterial model)) = 0 /\
    Material.transparent (materials st' (bottomStickerMaterial model)) = true /\
    (forall isBGRAFormat isWebGPU texture,
       Material.opacity
         (materials
            (loadTopTexture isBGRAFormat isWebGPU true ReadDone Decoded
                            (TextureLoaded texture) st')
            (topStickerMaterial model)) = 1) /\
    (forall isBGRAFormat texture,
       Material.opacity
         (materials
            (loadBottomTexture isBGRAFormat ReadDone Decoded
                               (TextureLoaded texture) st')
            (bottomStickerMaterial model)) = 1).
Proof.
  intros Hok st'.
  destruct (loadSkateboardModel_success outcome st Hok)
    as (scene & pmw & b & t & u & st0 & -> & _ & _ & _ & Href & Hmat).
  fold st' in Href, Hmat.
  destruct (stickers_hidden (material t) (material u) st0) as [Htop Hbottom].
  eexists. split; [exact Href|].
  cbn [topStickerMaterial bottomStickerMaterial].
  rewrite Hmat, Htop, Hbottom.
  repeat split.
  - intros isBGRAFormat isWebGPU texture.
    unfold loadTopTexture. rewrite Href. cbn [topStickerMaterial].
    destruct isBGRAFormat, isWebGPU;
      unfold loadTextureFromUrl; by rewrite updateMaterial_same.
  - intros isBGRAFormat texture.
    unfold loadBottomTexture. rewrite Href. cbn [bottomStickerMaterial].
    destruct isBGRAFormat;
      unfold loadTextureFromUrl; by rewrite updateMaterial_same.
Qed.

Lemma sticker_opacity_witness :
  error (loadSkateboardModel (GLTFLoaded deckGraph None) sceneReady) = None /\
  exists model,
    modelRef (loadSkateboardModel (GLTFLoaded deckGraph None) sceneReady)
      = Some model /\
    Material.opacity
      (materials (loadSkateboardModel (GLTFLoaded deckGraph None) sceneReady)
                 (topStickerMaterial model)) = 0.
Proof.
  split; [reflexivity|].
  destruct (sticker_opacity (GLTFLoaded deckGraph None) sceneReady)
    as (model & Href & Htop & _); [reflexivity|].
  exists model. split; [exact Href|exact Htop].
Defined.

(** ** Mesh dimensions *)

Lemma Rmin_shift (a b d : R) : Rmin (a + d) (b + d) = Rmin a b + d.
Proof. unfold Rmin. destruct (Rle_dec _ _), (Rle_dec _ _); lra. Qed.

Lemma Rmax_shift (a b d : R) : Rmax (a + d) (b + d) = Rmax a b + d.
Proof. unfold Rmax. destruct (Rle_dec _ _), (Rle_dec _ _); lra. Qed.

Lemma min_shift (a b d : Vector3.t) :
  Vector3.min (Vector3.add a d) (Vector3.add b d)
  = Vector3.add (Vector3.min a b) d.
Proof. apply Vector3_eq; simpl; apply Rmin_shift. Qed.

Lemma max_shift (a b d : Vector3.t) :
  Vector3.max (Vector3.add a d) (Vector3.add b d)
  = Vector3.add (Vector3.max a b) d.
Proof. apply Vector3_eq; simpl; apply Rmax_shift. Qed.

Lemma expandByPoint_shift (b : Box3.t) (p d : Vector3.t) :
  Box3.expandByPoint (Box3.translate b d) (Vector3.add p d)
  = Box3.translate (Box3.expandByPoint b p) d.
Proof.
  destruct b as [|lo hi]; simpl; [done|].
  by rewrite min_shift, max_shift.
Qed.

Lemma fold_expand_shift (d : Vector3.t) (points : list Vector3.t) :
  forall b,
    fold_left Box3.expandByPoint (map (fun p => Vector3.add p d) points)
              (Box3.translate b d)
    = Box3.translate (fold_left Box3.expandByPoint points b) d.
Proof.
  induction points as [|p points IH]; intros b; simpl; [done|].
  rewrite expandByPoint_shift. apply IH.
Qed.

Lemma setFromPoints_shift (d : Vector3.t) (points : list Vector3.t) :
  Box3.setFromPoints (map (fun p => Vector3.add p d) points)
  = Box3.translate (Box3.setFromPoints points) d.
Proof. apply (fold_expand_shift d points Box3.Empty). Qed.

Lemma fold_expand_box (points : list Vector3.t) : forall lo hi,
  exists lo' hi', fold_left Box3.expandByPoint points (Box3.Box lo hi)
                  = Box3.Box lo' hi'.
Proof.
  induction points as [|p points IH]; intros lo hi; simpl; eauto.
Qed.

Lemma setFromPoints_box (points : list Vector3.t) :
  points <> [] ->
  exists lo hi, Box3.setFromPoints points = Box3.Box lo hi.
Proof.
  destruct points as [|p points]; [done|]. intros _.
  apply fold_expand_box.
Qed.

(** An affine matrix carries a displaced point to the displaced image. *)
Lemma applyToVector3_shift (m : Matrix4.t) (p d : Vector3.t) :
  Matrix4.affine m ->
  Matrix4.applyToVector3 m (Vector3.add p d)
  = Vector3.add (Matrix4.applyToVector3 m p) (Matrix4.applyLinear m d).
Proof.
  intros (H1 & H2 & H3 & H4).
  apply Vector3_eq; simpl; rewrite H1, H2, H3, H4; field.
Qed.

Lemma applyMatrix4_shift (b : Box3.t) (m : Matrix4.t) (d : Vector3.t) :
  Matrix4.affine m ->
  Box3.applyMatrix4 (Box3.translate b d) m
  = Box3.translate (Box3.applyMatrix4 b m) (Matrix4.applyLinear m d).
Proof.
  intros Hm. destruct b as [|lo hi]; [done|].
  unfold Box3.translate at 1. unfold Box3.applyMatrix4.
  rewrite <- setFromPoints_shift. f_equal. cbn [map].
  cbn [Vector3.add Vector3.x Vector3.y Vector3.z].
  repeat (apply (f_equal2 cons);
          [exact (applyToVector3_shift m (Vector3.mk _ _ _) d Hm)|]).
  reflexivity.
Qed.

Lemma applyMatrix4_box (lo hi : Vector3.t) (m : Matrix4.t) :
  exists lo' hi', Box3.applyMatrix4 (Box3.Box lo hi) m = Box3.Box lo' hi'.
Proof. unfold Box3.applyMatrix4. apply setFromPoints_box. done. Qed.

Lemma compose_affine p q s : Matrix4.affine (Matrix4.compose p q s).
Proof. by repeat split. Qed.

Lemma multiplyMatrices_affine a b :
  Matrix4.affine a -> Matrix4.affine b ->
  Matrix4.affine (Matrix4.multiplyMatrices a b).
Proof.
  intros (A1 & A2 & A3 & A4) (B1 & B2 & B3 & B4).
  repeat split; simpl; rewrite A1, A2, A3, A4, ?B1, ?B2, ?B3, ?B4; ring.
Qed.

Lemma updateWorldMatrix_affine parentMatrixWorld obj :
  affineParent parentMatrixWorld ->
  Matrix4.affine (updateWorldMatrix parentMatrixWorld obj).
Proof.
  unfold updateWorldMatrix. destruct parentMatrixWorld as [pw|]; simpl.
  - intros Hpw. apply multiplyMatrices_affine; [done|apply compose_affine].
  - intros _. apply compose_affine.
Qed.

Section TranslateVertices.

Variable parentMatrixWorld : option Matrix4.t.
Variable mesh : Object3D.
Variable vertices : list Vector3.t.
Variable v : Vector3.t.

Hypothesis no_children : children mesh = [].
Hypothesis has_geometry : geometry mesh = Some vertices.
Hypothesis has_vertices : vertices <> [].
Hypothesis parent_affine : affineParent parentMatrixWorld.

Lemma setFromObject_leaf :
  setFromObject parentMatrixWorld mesh
  = Box3.applyMatrix4 (Box3.setFromPoints vertices)
                      (updateWorldMatrix parentMatrixWorld mesh).
Proof using no_children has_geometry.
  unfold setFromObject. destruct mesh as [i n m g mat p q s cs].
  simpl in *. subst. simpl. reflexivity.
Qed.

Lemma setFromObject_leaf_translated :
  setFromObject parentMatrixWorld (translateVertices v mesh)
  = Box3.applyMatrix4
      (Box3.setFromPoints (map (fun p => Vector3.add p v) vertices))
      (updateWorldMatrix parentMatrixWorld mesh).
Proof using no_children has_geometry.
  unfold setFromObject. destruct mesh as [i n m g mat p q s cs].
  simpl in *. subst. simpl. reflexivity.
Qed.

Lemma setFromObject_box :
  exists lo hi, setFromObject parentMatrixWorld mesh = Box3.Box lo hi.
Proof using no_children has_geometry has_vertices.
  rewrite setFromObject_leaf.
  destruct (setFromPoints_box vertices has_vertices) as (lo & hi & ->).
  apply applyMatrix4_box.
Qed.

(** Moving the vertices by [v] moves the measured box by the image of [v]
    under the linear part of the mesh's world matrix. *)
Lemma setFromObject_translateVertices :
  setFromObject parentMatrixWorld (translateVertices v mesh)
  = Box3.translate (setFromObject parentMatrixWorld mesh)
      (Matrix4.applyLinear (updateWorldMatrix parentMatrixWorld mesh) v).
Proof using no_children has_geometry parent_affine.
  rewrite setFromObject_leaf_translated, setFromObject_leaf.
  rewrite setFromPoints_shift.
  apply applyMatrix4_shift. by apply updateWorldMatrix_affine.
Qed.

Lemma getMeshDimensions_translateVertices_size :
  width (getMeshDimensions parentMatrixWorld (translateVertices v mesh))
    = width (getMeshDimensions parentMatrixWorld mesh) /\
  height (getMeshDimensions parentMatrixWorld (translateVertices v mesh))
    = height (getMeshDimensions parentMatrixWorld mesh) /\
  depth (getMeshDimensions parentMatrixWorld (translateVertices v mesh))
    = depth (getMeshDimensions parentMatrixWorld mesh).
Proof using no_children has_geometry has_vertices parent_affine.
  unfold getMeshDimensions. cbn [width height depth].
  rewrite setFromObject_translateVertices.
  destruct setFromObject_box as (lo & hi & ->).
  cbn [Box3.translate Box3.getSize Vector3.sub Vector3.add
       Vector3.x Vector3.y Vector3.z].
  repeat split; f_equal; ring.
Qed.

Lemma getMeshDimensions_translateVertices_center :
  center (getMeshDimensions parentMatrixWorld (translateVertices v mesh))
  = Vector3.add
      (center (getMeshDimensions parentMatrixWorld mesh))
      (Matrix4.applyLinear (updateWorldMatrix parentMatrixWorld mesh) v).
Proof using no_children has_geometry has_vertices parent_affine.
  unfold getMeshDimensions. cbn [center].
  rewrite setFromObject_translateVertices.
  destruct setFromObject_box as (lo & hi & ->).
  apply Vector3_eq; simpl; lra.
Qed.

End TranslateVertices.

(** C7, as stated, fails: on a mesh scaled by 2, moving the vertices by
    (1, 0, 0) does not move the returned center by (1, 0, 0). *)
Lemma getMeshDimensions_center_not_shifted_by_v :
  center (getMeshDimensions None
            (translateVertices (Vector3.mk 1 0 0) scaledMesh))
  <> Vector3.add (center (getMeshDimensions None scaledMesh))
                 (Vector3.mk 1 0 0).
Proof.
  rewrite (getMeshDimensions_translateVertices_center None scaledMesh
             [Vector3.mk 0 0 0; Vector3.mk 1 1 1] (Vector3.mk 1 0 0))
    by done.
  remember (center (getMeshDimensions None scaledMesh)) as c.
  intros H. apply (f_equal Vector3.x) in H. simpl in H. lra.
Qed.

(** C7, amended.  For a mesh without children whose geometry has at least
    one vertex, moving every vertex by [v] leaves width, height and depth as
    they were and moves the returned center by the image of [v] under the
    linear part of the mesh's world matrix; the center moves by [v] itself
    when that linear part leaves [v] as it is, as it does for a mesh that is
    neither rotated nor scaled in the world. *)
Theorem getMeshDimensions_translation (parentMatrixWorld : option Matrix4.t)
    (mesh : Object3D) (vertices : list Vector3.t) (v : Vector3.t) :
  children mesh = [] ->
  geometry mesh = Some vertices ->
  vertices <> [] ->
  affineParent parentMatrixWorld ->
  let before := getMeshDimensions parentMatrixWorld mesh in
  let after := getMeshDimensions parentMatrixWorld (translateVertices v mesh) in
  let matrixWorld := updateWorldMatrix parentMatrixWorld mesh in
  width after = width before /\
  height after = height before /\
  depth after = depth before /\
  center after = Vector3.add (center before) (Matrix4.applyLinear matrixWorld v) /\
  (Matrix4.applyLinear matrixWorld v = v ->
   center after = Vector3.add (center before) v).
Proof.
  intros Hc Hg Hv Hp before after matrixWorld.
  destruct (getMeshDimensions_translateVertices_size
              parentMatrixWorld mesh vertices v Hc Hg Hv Hp) as (Hw & Hh & Hd).
  pose proof (getMeshDimensions_translateVertices_center
                parentMatrixWorld mesh vertices v Hc Hg Hv Hp) as Hcenter.
  repeat split; try done.
  intros Hlin. subst after before matrixWorld. rewrite Hcenter. by rewrite Hlin.
Qed.

Lemma getMeshDimensions_translation_witness :
  width (getMeshDimensions None (translateVertices (Vector3.mk 1 0 0) unitMesh))
    = width (getMeshDimensions None unitMesh) /\
  center (getMeshDimensions None (translateVertices (Vector3.mk 1 0 0) unitMesh))
    = Vector3.add (center (getMeshDimensions None unitMesh)) (Vector3.mk 1 0 0).
Proof.
  destruct (getMeshDimensions_translation None unitMesh
              [Vector3.mk 0 0 0; Vector3.mk 1 1 1] (Vector3.mk 1 0 0))
    as (Hw & _ & _ & _ & Hcenter);
    [reflexivity | reflexivity | discriminate | exact I |].
  split; [exact Hw|].
  apply Hcenter. apply Vector3_eq; simpl; ring.
Defined.

(** ** Flipping the model *)

Lemma gt_true (a b : R) : gt a b = true <-> b < a.
Proof. unfold gt. destruct (Rlt_dec b a); split; (done || lra). Qed.

Lemma gt_false (a b : R) : gt a b = false <-> a <= b.
Proof. unfold gt. destruct (Rlt_dec b a); split; (done || lra). Qed.

Lemma Quaternion_eq (p q : Quaternion.t) :
  Quaternion.x p = Quaternion.x q -> Quaternion.y p = Quaternion.y q ->
  Quaternion.z p = Quaternion.z q -> Quaternion.w p = Quaternion.w q ->
  p = q.
Proof. destruct p, q. simpl. congruence. Qed.

Lemma sqrt_sqr_pos (a b : R) : 0 <= b -> a = b * b -> sqrt a = b.
Proof. intros Hb ->. by apply sqrt_square. Qed.

Lemma dec_05 : 0.5 = / 2. Proof. lra. Qed.
Lemma dec_025 : 0.25 = / 4. Proof. lra. Qed.
Lemma dec_10 : 1.0 = 1. Proof. lra. Qed.
Lemma dec_20 : 2.0 = 2. Proof. lra. Qed.

Ltac quat_entries :=
  apply Quaternion_eq; simpl; rewrite ?dec_05, ?dec_025, ?dec_10, ?dec_20;
  field; lra.

Section RotationQuaternion.

Variables x y z w : R.
Hypothesis unit : x * x + y * y + z * z + w * w = 1.
Variable position : Vector3.t.

Let q := Quaternion.mk x y z w.
Let m := Matrix4.compose position q (Vector3.mk 1 1 1).

Lemma setFromRotationMatrix_compose :
  Matrix4.setFromRotationMatrix m = q \/
  Matrix4.setFromRotationMatrix m = Quaternion.negate q.
Proof using unit.
  unfold Matrix4.setFromRotationMatrix, m, Matrix4.compose, q.
  cbn [Matrix4.n11 Matrix4.n12 Matrix4.n13 Matrix4.n21 Matrix4.n22 Matrix4.n23
       Matrix4.n31 Matrix4.n32 Matrix4.n33
       Quaternion.x Quaternion.y Quaternion.z Quaternion.w
       Vector3.x Vector3.y Vector3.z].
  match goal with |- context [gt ?t 0] => destruct (gt t 0) eqn:Htrace end.
  - apply gt_true in Htrace.
    assert (Hw : w <> 0) by (intros ->; nra).
    destruct (Rlt_dec 0 w) as [Hpos|Hneg].
    + left.
      match goal with |- context [sqrt ?a] =>
        rewrite (sqrt_sqr_pos a (2 * w)) by nra end.
      quat_entries.
    + right.
      match goal with |- context [sqrt ?a] =>
        rewrite (sqrt_sqr_pos a (- (2 * w))) by nra end.
      quat_entries.
  - apply gt_false in Htrace.
    match goal with |- context [gt ?a ?b && gt ?a ?c] =>
      destruct (gt a b) eqn:H12; [destruct (gt a c) eqn:H13|] end; simpl.
    + apply gt_true in H12. apply gt_true in H13.
      assert (Hx : x <> 0) by (intros ->; nra).
      destruct (Rlt_dec 0 x) as [Hpos|Hneg].
      * left.
        match goal with |- context [sqrt ?a] =>
          rewrite (sqrt_sqr_pos a (2 * x)) by nra end.
        quat_entries.
      * right.
        match goal with |- context [sqrt ?a] =>
          rewrite (sqrt_sqr_pos a (- (2 * x))) by nra end.
        quat_entries.
    + apply gt_true in H12. apply gt_false in H13.
      match goal with |- context [gt ?a ?b] =>
        destruct (gt a b) eqn:H23 end.
      * apply gt_true in H23.
        assert (Hy : y <> 0) by (intros ->; nra).
        destruct (Rlt_dec 0 y) as [Hpos|Hneg].
        -- left.
           match goal with |- context [sqrt ?a] =>
             rewrite (sqrt_sqr_pos a (2 * y)) by nra end.
           quat_entries.
        -- right.
           match goal with |- context [sqrt ?a] =>
             rewrite (sqrt_sqr_pos a (- (2 * y))) by nra end.
           quat_entries.
      * apply gt_false in H23.
        assert (Hz : z <> 0).
        { intros ->. assert (y = 0) by nra. subst y.
          assert (x = 0) by nra. subst x. nra. }
        destruct (Rlt_dec 0 z) as [Hpos|Hneg].
        -- left.
           match goal with |- context [sqrt ?a] =>
             rewrite (sqrt_sqr_pos a (2 * z)) by nra end.
           quat_entries.
        -- right.
           match goal with |- context [sqrt ?a] =>
             rewrite (sqrt_sqr_pos a (- (2 * z))) by nra end.
           quat_entries.
    + apply gt_false in H12.
      match goal with |- context [gt ?a ?b] =>
        destruct (gt a b) eqn:H23 end.
      * apply gt_true in H23.
        assert (Hy : y <> 0) by (intros ->; nra).
        destruct (Rlt_dec 0 y) as [Hpos|Hneg].
        -- left.
           match goal with |- context [sqrt ?a] =>
             rewrite (sqrt_sqr_pos a (2 * y)) by nra end.
           quat_entries.
        -- right.
           match goal with |- context [sqrt ?a] =>
             rewrite (sqrt_sqr_pos a (- (2 * y))) by nra end.
           quat_entries.
      * apply gt_false in H23.
        assert (Hz : z <> 0).
        { intros ->. assert (y = 0) by nra. subst y.
          assert (x = 0) by nra. subst x. nra. }
        destruct (Rlt_dec 0 z) as [Hpos|Hneg].
        -- left.
           match goal with |- context [sqrt ?a] =>
             rewrite (sqrt_sqr_pos a (2 * z)) by nra end.
           quat_entries.
        -- right.
           match goal with |- context [sqrt ?a] =>
             rewrite (sqrt_sqr_pos a (- (2 * z))) by nra end.
           quat_entries.
Qed.

End RotationQuaternion.

Section ComposeDecompose.

Variables x y z w : R.
Hypothesis unit : x * x + y * y + z * z + w * w = 1.
Variable position : Vector3.t.

Let q := Quaternion.mk x y z w.
Let m := Matrix4.compose position q (Vector3.mk 1 1 1).

Lemma column1_unit :
  Matrix4.n11 m * Matrix4.n11 m + Matrix4.n21 m * Matrix4.n21 m
    + Matrix4.n31 m * Matrix4.n31 m = 1.
Proof using unit. simpl. nsatz. Qed.

Lemma column2_unit :
  Matrix4.n12 m * Matrix4.n12 m + Matrix4.n22 m * Matrix4.n22 m
    + Matrix4.n32 m * Matrix4.n32 m = 1.
Proof using unit. simpl. nsatz. Qed.

Lemma column3_unit :
  Matrix4.n13 m * Matrix4.n13 m + Matrix4.n23 m * Matrix4.n23 m
    + Matrix4.n33 m * Matrix4.n33 m = 1.
Proof using unit. simpl. nsatz. Qed.

Lemma determinant_compose : Matrix4.determinant m = 1.
Proof using unit. unfold Matrix4.determinant. simpl. nsatz. Qed.

End ComposeDecompose.

Lemma Matrix4_eq (a b : Matrix4.t) :
  Matrix4.n11 a = Matrix4.n11 b -> Matrix4.n12 a = Matrix4.n12 b ->
  Matrix4.n13 a = Matrix4.n13 b -> Matrix4.n14 a = Matrix4.n14 b ->
  Matrix4.n21 a = Matrix4.n21 b -> Matrix4.n22 a = Matrix4.n22 b ->
  Matrix4.n23 a = Matrix4.n23 b -> Matrix4.n24 a = Matrix4.n24 b ->
  Matrix4.n31 a = Matrix4.n31 b -> Matrix4.n32 a = Matrix4.n32 b ->
  Matrix4.n33 a = Matrix4.n33 b -> Matrix4.n34 a = Matrix4.n34 b ->
  Matrix4.n41 a = Matrix4.n41 b -> Matrix4.n42 a = Matrix4.n42 b ->
  Matrix4.n43 a = Matrix4.n43 b -> Matrix4.n44 a = Matrix4.n44 b ->
  a = b.
Proof. destruct a, b. simpl. intros. subst. reflexivity. Qed.

Lemma lengthSq_unit_entries (q : Quaternion.t) :
  Quaternion.lengthSq q = 1 ->
  Quaternion.x q * Quaternion.x q + Quaternion.y q * Quaternion.y q
    + Quaternion.z q * Quaternion.z q + Quaternion.w q * Quaternion.w q = 1.
Proof. done. Qed.

(** Decomposing the matrix of a position, a unit quaternion and scale 1
    gives back the position, the scale, and the quaternion up to sign. *)
Lemma decompose_compose (position : Vector3.t) (q : Quaternion.t) :
  Quaternion.lengthSq q = 1 ->
  exists q',
    Matrix4.decompose (Matrix4.compose position q (Vector3.mk 1 1 1))
      = (position, q', Vector3.mk 1 1 1) /\
    (q' = q \/ q' = Quaternion.negate q).
Proof.
  destruct q as [x y z w]. unfold Quaternion.lengthSq. simpl. intros Hunit.
  set (M := Matrix4.compose position (Quaternion.mk x y z w) (Vector3.mk 1 1 1)).
  unfold Matrix4.decompose.
  rewrite (length_unit (Vector3.mk (Matrix4.n11 M) (Matrix4.n21 M) (Matrix4.n31 M))
             (column1_unit x y z w Hunit position)).
  rewrite (length_unit (Vector3.mk (Matrix4.n12 M) (Matrix4.n22 M) (Matrix4.n32 M))
             (column2_unit x y z w Hunit position)).
  rewrite (length_unit (Vector3.mk (Matrix4.n13 M) (Matrix4.n23 M) (Matrix4.n33 M))
             (column3_unit x y z w Hunit position)).
  rewrite (determinant_compose x y z w Hunit position : Matrix4.determinant M = 1).
  replace (gt 0 1) with false by (symmetry; apply gt_false; lra).
  match goal with |- context [Matrix4.setFromRotationMatrix ?m1] =>
    replace m1 with M by (apply Matrix4_eq; simpl; field)
  end.
  eexists. split.
  - f_equal. f_equal. by destruct position.
  - apply setFromRotationMatrix_compose. exact Hunit.
Qed.

Lemma applyQuaternion_unit (axis : Axis) (q : Quaternion.t) :
  Quaternion.lengthSq q = 1 ->
  let a := Vector3.applyQuaternion (localAxisOf axis) q in
  Vector3.x a * Vector3.x a + Vector3.y a * Vector3.y a
    + Vector3.z a * Vector3.z a = 1.
Proof.
  destruct q as [x y z w]. unfold Quaternion.lengthSq. simpl. intros Hunit.
  destruct axis; simpl; nsatz.
Qed.

(** Turning by pi about the model's own axis, seen from the world, is the
    model's rotation followed on the right by the half turn about that
    axis. *)
Lemma flip_matrix (axis : Axis) (q : Quaternion.t) :
  Quaternion.lengthSq q = 1 ->
  Matrix4.premultiply
    (Matrix4.compose Vector3.zero q (Vector3.mk 1 1 1))
    (Matrix4.makeRotationAxis
       (Vector3.normalize (Vector3.applyQuaternion (localAxisOf axis) q)) PI)
  = Matrix4.compose Vector3.zero (Quaternion.multiply q (halfTurn axis))
                    (Vector3.mk 1 1 1).
Proof.
  intros Hunit.
  rewrite (normalize_unit _ (applyQuaternion_unit axis q Hunit)).
  destruct q as [x y z w]. unfold Quaternion.lengthSq in Hunit. simpl in Hunit.
  unfold Matrix4.makeRotationAxis. rewrite cos_PI, sin_PI.
  destruct axis; apply Matrix4_eq; simpl; nsatz.
Qed.

Lemma multiply_unit (a b : Quaternion.t) :
  Quaternion.lengthSq a = 1 -> Quaternion.lengthSq b = 1 ->
  Quaternion.lengthSq (Quaternion.multiply a b) = 1.
Proof.
  destruct a, b. unfold Quaternion.lengthSq. simpl. intros Ha Hb. nsatz.
Qed.

Lemma halfTurn_unit (axis : Axis) : Quaternion.lengthSq (halfTurn axis) = 1.
Proof. destruct axis; unfold Quaternion.lengthSq; simpl; ring. Qed.

Lemma negate_unit (q : Quaternion.t) :
  Quaternion.lengthSq q = 1 -> Quaternion.lengthSq (Quaternion.negate q) = 1.
Proof. destruct q. unfold Quaternion.lengthSq. simpl. intros H. lra. Qed.

Lemma negate_negate (q : Quaternion.t) :
  Quaternion.negate (Quaternion.negate q) = q.
Proof. apply Quaternion_eq; simpl; ring. Qed.

Lemma multiply_negate_l (a b : Quaternion.t) :
  Quaternion.multiply (Quaternion.negate a) b
  = Quaternion.negate (Quaternion.multiply a b).
Proof. apply Quaternion_eq; simpl; ring. Qed.

(** Two half turns about the same axis make a full turn: the quaternion
    changes sign. *)
Lemma halfTurn_twice (axis : Axis) (q : Quaternion.t) :
  Quaternion.multiply (Quaternion.multiply q (halfTurn axis)) (halfTurn axis)
  = Quaternion.negate q.
Proof. destruct axis; apply Quaternion_eq; simpl; ring. Qed.

(** A quaternion and its negation stand for the same rotation. *)
Lemma compose_negate (p : Vector3.t) (q : Quaternion.t) (s : Vector3.t) :
  Matrix4.compose p (Quaternion.negate q) s = Matrix4.compose p q s.
Proof. apply Matrix4_eq; simpl; ring. Qed.

(** One flip of an object with a unit quaternion and scale 1. *)
Lemma flipObject_once (axis : Axis) (model : Object3D) :
  wellPlaced model ->
  exists q',
    flipObject axis model
      = setTransform model (position model) q' (Vector3.mk 1 1 1) /\
    (q' = Quaternion.multiply (quaternion model) (halfTurn axis) \/
     q' = Quaternion.negate (Quaternion.multiply (quaternion model) (halfTurn axis))).
Proof.
  intros [Hunit Hscale].
  pose proof (multiply_unit _ _ Hunit (halfTurn_unit axis)) as Hunit'.
  destruct (decompose_compose Vector3.zero _ Hunit') as (q' & Hdec & Hq').
  exists q'. split; [|exact Hq'].
  unfold flipObject, applyMatrix4.
  change (match axis with
          | AxisX => Vector3.mk 1 0 0
          | AxisY => Vector3.mk 0 1 0
          | AxisZ => Vector3.mk 0 0 1
          end) with (localAxisOf axis).
  unfold setPosition at 2 3 4.
  cbn [position quaternion scale setTransform].
  rewrite Hscale, (flip_matrix axis _ Hunit), Hdec.
  reflexivity.
Qed.

Lemma flipObject_wellPlaced (axis : Axis) (model : Object3D) :
  wellPlaced model -> wellPlaced (flipObject axis model).
Proof.
  intros Hwp. destruct (flipObject_once axis model Hwp) as (q' & -> & Hq').
  destruct Hwp as [Hunit _].
  pose proof (multiply_unit _ _ Hunit (halfTurn_unit axis)) as Hunit'.
  split; [|reflexivity]. cbn [quaternion setTransform].
  destruct Hq' as [->| ->]; [done|by apply negate_unit].
Qed.

Lemma flipObject_twice (axis : Axis) (model : Object3D) :
  wellPlaced model ->
  exists q'',
    flipObject axis (flipObject axis model)
      = setTransform model (position model) q'' (Vector3.mk 1 1 1) /\
    (q'' = quaternion model \/ q'' = Quaternion.negate (quaternion model)).
Proof.
  intros Hwp.
  pose proof (flipObject_wellPlaced axis model Hwp) as Hwp1.
  destruct (flipObject_once axis _ Hwp1) as (q'' & Heq & Hq'').
  destruct (flipObject_once axis model Hwp) as (q' & Heq1 & Hq').
  rewrite Heq1 in Heq, Hq''. cbn [position quaternion setTransform] in Heq, Hq''.
  exists q''. split.
  - rewrite Heq1. rewrite Heq. unfold setTransform. reflexivity.
  - destruct Hq' as [->| ->];
      rewrite ?multiply_negate_l, halfTurn_twice, ?negate_negate in Hq'';
      tauto.
Qed.

Lemma flipModel_loaded (axis : Axis) (st : State) (m : LoadedModel) :
  modelRef st = Some m ->
  flipModel axis st
  = setError None
      (setModelRef
         (Some (mkLoadedModel (flipObject axis (root m)) (baseMaterial m)
                              (topStickerMaterial m) (bottomStickerMaterial m)))
         st).
Proof. intros H. unfold flipModel. by rewrite H. Qed.

(** C4. For a loaded model (unit quaternion, scale 1, as the loader places
    it and as flips keep it) and any axis: one flip leaves the position as
    it was, and so do two; after two flips about the same axis the
    quaternion is the original one up to sign, hence the same orientation
    (same rotation matrix), and the scale is unchanged. *)
Theorem flipModel_twice_restores (axis : Axis) (st : State) (m : LoadedModel) :
  modelRef st = Some m ->
  wellPlaced (root m) ->
  exists once twice,
    modelRef (flipModel axis st) = Some once /\
    modelRef (flipModel axis (flipModel axis st)) = Some twice /\
    position (root once) = position (root m) /\
    position (root twice) = position (root m) /\
    (quaternion (root twice) = quaternion (root m) \/
     quaternion (root twice) = Quaternion.negate (quaternion (root m))) /\
    Matrix4.makeRotationFromQuaternion (quaternion (root twice))
      = Matrix4.makeRotationFromQuaternion (quaternion (root m)) /\
    scale (root twice) = scale (root m).
Proof.
  intros Hm Hwp.
  destruct (flipObject_once axis (root m) Hwp) as (q' & Hone & _).
  destruct (flipObject_twice axis (root m) Hwp) as (q'' & Htwo & Hq'').
  rewrite (flipModel_loaded axis st m Hm).
  erewrite (flipModel_loaded axis (setError None _)) by reflexivity.
  eexists _, _. split; [reflexivity|]. split; [reflexivity|].
  cbn [root]. rewrite Htwo, Hone. cbn [position quaternion scale setTransform].
  destruct Hwp as [_ Hscale].
  repeat split; try done.
  unfold Matrix4.makeRotationFromQuaternion.
  destruct Hq'' as [->| ->]; [done|apply compose_negate].
Qed.

Lemma flipModel_twice_restores_witness :
  exists twice,
    modelRef (flipModel AxisY (flipModel AxisY deckLoaded)) = Some twice /\
    position (root twice) = Vector3.zero /\
    Matrix4.makeRotationFromQuaternion (quaternion (root twice))
      = Matrix4.makeRotationFromQuaternion Quaternion.identity.
Proof.
  destruct (flipModel_twice_restores AxisY deckLoaded
              (mkLoadedModel deckGraph 2 3 4))
    as (once & twice & _ & Htwice & _ & Hpos & _ & Hrot & _).
  - reflexivity.
  - split; [unfold Quaternion.lengthSq; simpl; ring|reflexivity].
  - exists twice. split; [exact Htwice|]. split; [exact Hpos|exact Hrot].
Defined.

(** ** Keyboard state *)

Lemma movementKeys_lower (key : string) :
  key ∈ movementKeys -> toLowerCase key ∈ lowerMovementKeys.
Proof.
  unfold movementKeys. intros H.
  repeat (apply elem_of_cons in H as [->|H]);
    [key_fact .. | by apply elem_of_nil in H].
Qed.

(** X1. The key listeners keep the set of held keys inside
    {w, a, s, d}, whatever key the event carries. *)
Theorem key_events_keep_movement_keys (key : string) (st : State) :
  keysPressed st ⊆ lowerMovementKeys ->
  keysPressed (handleKeyDown key st) ⊆ lowerMovementKeys /\
  keysPressed (handleKeyUp key st) ⊆ lowerMovementKeys.
Proof.
  intros Hinv. unfold handleKeyDown, handleKeyUp.
  case_bool_decide as Hkey; [|done].
  apply movementKeys_lower in Hkey. simpl. split; set_solver.
Qed.

Lemma key_events_keep_movement_keys_witness :
  keysPressed (handleKeyDown "W" walking) ⊆ lowerMovementKeys /\
  keysPressed (handleKeyUp "q" walking) ⊆ lowerMovementKeys.
Proof.
  destruct (key_events_keep_movement_keys "W" walking) as [Hdown _];
    [key_fact|].
  destruct (key_events_keep_movement_keys "q" walking) as [_ Hup];
    [key_fact|].
  split; [exact Hdown|exact Hup].
Defined.

(** X2. Pressing a movement key holds its lower-case letter, and releasing
    the same letter in either case lets it go: a key pressed with Shift is
    released by the plain key. *)
Theorem key_release_ignores_case (key key' : string) (st : State) :
  key ∈ movementKeys -> key' ∈ movementKeys ->
  toLowerCase key' = toLowerCase key ->
  has (keysPressed (handleKeyDown key st)) (toLowerCase key) = true /\
  has (keysPressed (handleKeyUp key' (handleKeyDown key st)))
      (toLowerCase key) = false.
Proof.
  intros Hkey Hkey' Hsame. unfold handleKeyDown, handleKeyUp.
  rewrite (bool_decide_eq_true_2 _ Hkey), (bool_decide_eq_true_2 _ Hkey').
  cbn [keysPressed setKeysPressed]. rewrite Hsame. split.
  - apply has_true. set_solver.
  - apply has_false. set_solver.
Qed.

Lemma key_release_ignores_case_witness :
  has (keysPressed (handleKeyDown "W" sceneReady)) "w" = true /\
  has (keysPressed (handleKeyUp "w" (handleKeyDown "W" sceneReady))) "w" = false.
Proof.
  apply (key_release_ignores_case "W" "w" sceneReady);
    [key_fact | key_fact | reflexivity].
Defined.

(** ** More on camera locomotion *)

Lemma normalize_flat_y (v : Vector3.t) :
  Vector3.y (Vector3.normalize (Vector3.setY v 0)) = 0.
Proof. simpl. ring. Qed.

(** X3. A tick never changes the camera's height nor its orientation,
    whatever keys are held and wherever the camera looks. *)
Theorem moveCamera_stays_level (keys : gset string) (speed : R)
    (camera : Camera.t) :
  Vector3.y (Camera.position (moveCamera keys speed camera))
    = Vector3.y (Camera.position camera) /\
  Camera.quaternion (moveCamera keys speed camera) = Camera.quaternion camera.
Proof.
  split; [|reflexivity].
  unfold moveCamera. cbn [Camera.position].
  pose proof (normalize_flat_y
    (Vector3.normalize
       (Vector3.applyQuaternion (Vector3.mk 0 0 (-1)) (Camera.quaternion camera))))
    as Hf.
  pose proof (normalize_flat_y
    (Vector3.normalize
       (Vector3.applyQuaternion (Vector3.mk (-1) 0 0) (Camera.quaternion camera))))
    as Hl.
  fold (cameraForward camera) in Hf. fold (cameraLeft camera) in Hl.
  destruct (has keys "w"), (has keys "s"), (has keys "a"), (has keys "d");
    cbn [Vector3.addScaledVector Vector3.y]; rewrite ?Hf, ?Hl; ring.
Qed.

(** X4. Opposite keys cancel: with forward and back both held, and left
    and right both held or both free, the tick leaves the camera where it
    is. *)
Theorem moveCamera_opposite_keys_cancel (keys : gset string) (speed : R)
    (camera : Camera.t) :
  has keys "w" = has keys "s" ->
  has keys "a" = has keys "d" ->
  moveCamera keys speed camera = camera.
Proof.
  intros Hws Had. unfold moveCamera. rewrite Hws, Had.
  destruct camera as [p q]. cbn [Camera.position Camera.quaternion]. f_equal.
  destruct (has keys "s"), (has keys "d"); apply Vector3_eq; simpl; ring.
Qed.

Lemma moveCamera_opposite_keys_cancel_witness :
  moveCamera {["w"; "s"]} 0.05 (Camera.mk (Vector3.mk 0 2 5) lookingUp)
  = Camera.mk (Vector3.mk 0 2 5) lookingUp.
Proof.
  apply moveCamera_opposite_keys_cancel; vm_compute; reflexivity.
Defined.

Lemma sum_squares_nonneg (v : Vector3.t) :
  0 <= Vector3.x v * Vector3.x v + Vector3.y v * Vector3.y v
       + Vector3.z v * Vector3.z v.
Proof. nra. Qed.

Lemma length_sqr (v : Vector3.t) :
  Vector3.length v * Vector3.length v
  = Vector3.x v * Vector3.x v + Vector3.y v * Vector3.y v
    + Vector3.z v * Vector3.z v.
Proof. unfold Vector3.length. apply sqrt_sqrt, sum_squares_nonneg. Qed.

Lemma length_0_zero (v : Vector3.t) : Vector3.length v = 0 -> v = Vector3.zero.
Proof.
  intros H. pose proof (length_sqr v) as Hs. rewrite H in Hs.
  apply Vector3_eq; simpl; nra.
Qed.

(** A vector that is not zero is normalized to length 1. *)
Lemma normalize_length (v : Vector3.t) :
  Vector3.length v <> 0 -> Vector3.length (Vector3.normalize v) = 1.
Proof.
  intros Hne. pose proof (length_sqr v) as Hs.
  apply length_unit. unfold Vector3.normalize, Vector3.divideScalar.
  rewrite orOne_nonzero by done. simpl.
  transitivity ((Vector3.length v * Vector3.length v)
                * (1 / Vector3.length v) * (1 / Vector3.length v)).
  - rewrite Hs. ring.
  - field. exact Hne.
Qed.

Lemma cameraForward_unit (camera : Camera.t) :
  cameraForward camera <> Vector3.zero ->
  Vector3.length (cameraForward camera) = 1.
Proof.
  intros Hne. unfold cameraForward in *.
  apply normalize_length. intros Hzero.
  apply Hne. apply length_0_zero in Hzero. rewrite Hzero. apply normalize_zero.
Qed.

Lemma length_scaled (v : Vector3.t) (s : R) :
  0 <= s -> Vector3.length v = 1 ->
  Vector3.length (Vector3.multiplyScalar v s) = s.
Proof.
  intros Hs Hv. pose proof (length_sqr v) as Hsq. rewrite Hv in Hsq.
  unfold Vector3.length. simpl. apply sqrt_sqr_pos; [done|]. nra.
Qed.

(** X5. With the forward key alone, and a view that is not straight up or
    down, one tick moves the camera by exactly the speed: the step does not
    shrink when the camera is pitched. *)
Theorem moveCamera_forward_step_length (keys : gset string) (speed : R)
    (camera : Camera.t) :
  has keys "w" = true -> has keys "s" = false ->
  has keys "a" = false -> has keys "d" = false ->
  0 <= speed ->
  cameraForward camera <> Vector3.zero ->
  Vector3.length
    (Vector3.sub (Camera.position (moveCamera keys speed camera))
                 (Camera.position camera))
  = speed.
Proof.
  intros Hw Hs Ha Hd Hspeed Hne. unfold moveCamera. rewrite Hw, Hs, Ha, Hd.
  cbn [Camera.position].
  replace (Vector3.sub
             (Vector3.addScaledVector (Camera.position camera)
                (cameraForward camera) speed)
             (Camera.position camera))
    with (Vector3.multiplyScalar (cameraForward camera) speed)
    by (apply Vector3_eq; simpl; ring).
  apply length_scaled; [done|]. by apply cameraForward_unit.
Qed.

Lemma moveCamera_forward_step_length_witness :
  Vector3.length
    (Vector3.sub
       (Camera.position
          (moveCamera {["w"]} 0.05 (Camera.mk (Vector3.mk 0 2 5) Quaternion.identity)))
       (Vector3.mk 0 2 5))
  = 0.05.
Proof.
  apply (moveCamera_forward_step_length {["w"]} 0.05
           (Camera.mk (Vector3.mk 0 2 5) Quaternion.identity));
    [vm_compute; reflexivity .. | lra |].
  rewrite cameraForward_identity. intros H. injection H. lra.
Defined.

(** ** More on loading the model *)

Lemma findMeshInModel_Some_iff (model : Object3D) (fragment : string) :
  (exists o, findMeshInModel model fragment = Some o) <-> hasMesh model fragment.
Proof.
  rewrite findMeshInModel_lastMatch. unfold lastMatch, hasMesh.
  change (fun obj => isMesh obj && includes (name obj) fragment = true)
    with (fun o => matches fragment o = true).
  assert (Hsplit := last_filter_split (matches fragment) (preorder model)).
  destruct (last _) as [o|].
  - split; [intros _|by eauto].
    destruct Hsplit as (l1 & l2 & -> & Ho & _).
    apply Exists_app. right. apply Exists_cons. left.
    by apply matches_true_iff.
  - split; [by intros [o Ho]|].
    intros Hex. apply Exists_exists in Hex as (o & Hin & Ho).
    rewrite Forall_forall in Hsplit. apply matches_true_iff in Ho.
    specialize (Hsplit o Hin). congruence.
Qed.

Lemma hasMesh_placeModel (scene : Object3D) (fragment : string) :
  hasMesh (placeModel scene) fragment <-> hasMesh scene fragment.
Proof.
  unfold hasMesh. destruct scene as [i n m g mat p q sc cs]. simpl.
  rewrite !Exists_cons. simpl. done.
Qed.

(** X6. A load ends without an error message exactly when the scene is
    initialised, the loader delivered a model, and for each of "base",
    "top_sticker" and "bottom_sticker" some mesh of the model has a name
    containing it. *)
Theorem loadSkateboardModel_ok_iff (outcome : GLTFLoad) (st : State) :
  error (loadSkateboardModel outcome st) = None <->
  (exists sceneChildren, sceneRef st = Some sceneChildren) /\
  rendererReady st = true /\
  exists scene parentMatrixWorld,
    outcome = GLTFLoaded scene parentMatrixWorld /\
    hasMesh scene "base" /\
    hasMesh scene "top_sticker" /\
    hasMesh scene "bottom_sticker".
Proof.
  split.
  - intros Hok.
    destruct (loadSkateboardModel_success outcome st Hok)
      as (scene & pmw & b & t & u & st0 & -> & Hb & Ht & Hu & _ & _).
    unfold loadSkateboardModel in Hok.
    destruct (sceneRef st) as [sceneChildren|]; [|discriminate].
    destruct (rendererReady st); [|discriminate].
    split; [by eauto|]. split; [done|].
    exists scene, pmw. split; [done|].
    repeat split; apply hasMesh_placeModel; apply findMeshInModel_Some_iff;
      eauto.
  - intros ((sceneChildren & Hscene) & Hready & scene & pmw & -> & Hb & Ht & Hu).
    apply hasMesh_placeModel in Hb. apply findMeshInModel_Some_iff in Hb as [b Hb].
    apply hasMesh_placeModel in Ht. apply findMeshInModel_Some_iff in Ht as [t Ht].
    apply hasMesh_placeModel in Hu. apply findMeshInModel_Some_iff in Hu as [u Hu].
    unfold loadSkateboardModel, loadSkateboardModel_try.
    rewrite Hscene, Hready, Hb, Ht, Hu. reflexivity.
Qed.

(** A load attempted before the scene is initialised only reports
    "场景未初始化": the model held so far, the scene and everything else stay
    as they are. *)
Theorem loadSkateboardModel_uninitialised (outcome : GLTFLoad) (st : State) :
  sceneRef st = None \/ rendererReady st = false ->
  loadSkateboardModel outcome st = setError (Some "场景未初始化"%string) st.
Proof.
  intros [H|H]; unfold loadSkateboardModel; rewrite H; [done|].
  by destruct (sceneRef st).
Qed.

Lemma loadSkateboardModel_uninitialised_witness :
  modelRef (loadSkateboardModel (GLTFLoaded deckGraph None)
              (setRendererReady false deckLoaded))
  = Some (mkLoadedModel deckGraph 2 3 4).
Proof.
  rewrite (loadSkateboardModel_uninitialised (GLTFLoaded deckGraph None)
             (setRendererReady false deckLoaded));
    [reflexivity | right; reflexivity].
Defined.

(** X7. When the loader itself fails, the message is passed on after
    "模型加载失败: ", and the model held before is gone all the same: it has
    left the scene, the reference is null, the board dimensions are
    cleared and the loading flag is down. *)
Theorem loadSkateboardModel_loader_failure (message : string) (st : State)
    (sceneChildren : list positive) (old : LoadedModel) :
  sceneRef st = Some sceneChildren ->
  rendererReady st = true ->
  modelRef st = Some old ->
  let st' := loadSkateboardModel (GLTFFailed message) st in
  error st' = Some ("模型加载失败: " ++ message)%string /\
  modelRef st' = None /\
  sceneRef st' = Some (sceneRemove (id (root old)) sceneChildren) /\
  boardDimensions st' = None /\
  modelLoading st' = false /\
  materials st' = materials st.
Proof.
  intros Hscene Hready Hold. simpl.
  unfold loadSkateboardModel. rewrite Hscene, Hready, Hold. simpl. done.
Qed.

Lemma loadSkateboardModel_loader_failure_witness :
  modelRef (loadSkateboardModel (GLTFFailed "404") deckLoaded) = None /\
  error (loadSkateboardModel (GLTFFailed "404") deckLoaded)
    = Some ("模型加载失败: " ++ "404")%string.
Proof.
  destruct (loadSkateboardModel_loader_failure "404" deckLoaded
              [101; 102; 103]%positive (mkLoadedModel deckGraph 2 3 4))
    as (Herr & Href & _); [reflexivity ..|].
  split; [exact Href|exact Herr].
Defined.

Lemma setFromEuler_turn_unit (angle : R) :
  Quaternion.lengthSq (Quaternion.setFromEuler 0 angle 0) = 1.
Proof.
  unfold Quaternion.lengthSq, Quaternion.setFromEuler. simpl.
  replace (0 / 2) with 0 by lra. rewrite cos_0, sin_0.
  pose proof (sin2_cos2 (angle / 2)) as H. unfold Rsqr in H. nra.
Qed.

Lemma placeModel_wellPlaced (scene : Object3D) : wellPlaced (placeModel scene).
Proof. split; [apply setFromEuler_turn_unit|reflexivity]. Qed.

(** What a load without error leaves behind. *)
Lemma loadSkateboardModel_installed (scene : Object3D)
    (parentMatrixWorld : option Matrix4.t) (st : State)
    (sceneChildren : list positive) :
  sceneRef st = Some sceneChildren ->
  error (loadSkateboardModel (GLTFLoaded scene parentMatrixWorld) st) = None ->
  let st' := loadSkateboardModel (GLTFLoaded scene parentMatrixWorld) st in
  exists model,
    modelRef st' = Some model /\
    id (root model) = id scene /\
    children (root model) = children scene /\
    position (root model) = Vector3.mk 0 1 0 /\
    wellPlaced (root model) /\
    sceneRef st' =
      Some (match modelRef st with
            | Some old => sceneRemove (id (root old)) sceneChildren
            | None => sceneChildren
            end ++ [id scene]) /\
    modelLoading st' = false /\
    boardDimensions st' <> None.
Proof.
  intros Hscene Hok st'.
  destruct (loadSkateboardModel_success _ st Hok)
    as (scene' & pmw & b & t & u & st0 & Heq & Hb & Ht & Hu & Href & _).
  injection Heq as <- <-.
  eexists. split; [exact Href|]. cbn [root].
  split; [reflexivity|]. split; [reflexivity|]. split; [reflexivity|].
  split; [apply placeModel_wellPlaced|].
  subst st'. unfold loadSkateboardModel in *. rewrite Hscene in *.
  destruct (rendererReady st); [|discriminate].
  unfold loadSkateboardModel_try. rewrite Hb, Ht, Hu.
  destruct (modelRef st) as [old|]; simpl; [done|].
  rewrite Hscene. done.
Qed.

(** X8. A load that ends without error holds the delivered scene as the
    model, standing at (0, 1, 0) with scale 1 and a unit quaternion; the
    scene's children are the former ones, less the model replaced, with the
    new model appended; the loading flag is down and board dimensions are
    set. *)
Theorem loadSkateboardModel_installs (scene : Object3D)
    (parentMatrixWorld : option Matrix4.t) (st : State)
    (sceneChildren : list positive) :
  sceneRef st = Some sceneChildren ->
  error (loadSkateboardModel (GLTFLoaded scene parentMatrixWorld) st) = None ->
  let st' := loadSkateboardModel (GLTFLoaded scene parentMatrixWorld) st in
  exists model,
    modelRef st' = Some model /\
    id (root model) = id scene /\
    children (root model) = children scene /\
    position (root model) = Vector3.mk 0 1 0 /\
    wellPlaced (root model) /\
    sceneRef st' =
      Some (match modelRef st with
            | Some old => sceneRemove (id (root old)) sceneChildren
            | None => sceneChildren
            end ++ [id scene]) /\
    modelLoading st' = false /\
    boardDimensions st' <> None.
Proof. apply loadSkateboardModel_installed. Qed.

Lemma loadSkateboardModel_installs_witness :
  exists model,
    modelRef (loadSkateboardModel (GLTFLoaded deckGraph None) sceneReady)
      = Some model /\
    position (root model) = Vector3.mk 0 1 0 /\
    sceneRef (loadSkateboardModel (GLTFLoaded deckGraph None) sceneReady)
      = Some [101; 102; 103; 1]%positive.
Proof.
  destruct (loadSkateboardModel_installs deckGraph None sceneReady
              [101; 102; 103]%positive)
    as (model & Href & _ & _ & Hpos & _ & Hscene & _);
    [reflexivity | reflexivity |].
  exists model. split; [exact Href|]. split; [exact Hpos|exact Hscene].
Defined.

Lemma updateMaterial_other r r' f st :
  r' <> r -> materials (updateMaterial r f st) r' = materials st r'.
Proof. intros H. simpl. by rewrite decide_False. Qed.

Lemma loadSkateboardModel_materials (outcome : GLTFLoad) (st : State) :
  error (loadSkateboardModel outcome st) = None ->
  exists model,
    modelRef (loadSkateboardModel outcome st) = Some model /\
    materials (loadSkateboardModel outcome st) =
      materials (updateMaterial (bottomStickerMaterial model) hideSticker
                   (updateMaterial (topStickerMaterial model) hideSticker st)).
Proof.
  unfold loadSkateboardModel.
  destruct (sceneRef st) as [sceneChildren|]; [|discriminate].
  destruct (rendererReady st); [|discriminate].
  destruct outcome as [scene pmw|message]; [|discriminate].
  unfold loadSkateboardModel_try.
  destruct (findMeshInModel (placeModel scene) "base") as [b|];
    [|discriminate].
  destruct (findMeshInModel (placeModel scene) "top_sticker") as [t|];
    [|discriminate].
  destruct (findMeshInModel (placeModel scene) "bottom_sticker") as [u|];
    [|discriminate].
  intros _. eexists. split; [reflexivity|].
  destruct (modelRef st); reflexivity.
Qed.

(** X9. A successful load rewrites the two sticker materials and no
    other: a base material of its own is as it was before, while a base
    material shared with a sticker mesh is hidden with it (opacity 0). *)
Theorem loadSkateboardModel_base_material (outcome : GLTFLoad) (st : State) :
  error (loadSkateboardModel outcome st) = None ->
  let st' := loadSkateboardModel outcome st in
  exists model,
    modelRef st' = Some model /\
    (forall r, r <> topStickerMaterial model ->
               r <> bottomStickerMaterial model ->
               materials st' r = materials st r) /\
    (baseMaterial model = topStickerMaterial model \/
     baseMaterial model = bottomStickerMaterial model ->
     Material.opacity (materials st' (baseMaterial model)) = 0).
Proof.
  intros Hok st'.
  destruct (loadSkateboardModel_materials outcome st Hok)
    as (model & Href & Hmat).
  fold st' in Href, Hmat.
  destruct (stickers_hidden (topStickerMaterial model)
              (bottomStickerMaterial model) st) as [Htop Hbottom].
  exists model. split; [exact Href|]. rewrite Hmat. split.
  - intros r Hr1 Hr2. by rewrite !updateMaterial_other.
  - intros [-> | ->]; [rewrite Htop|rewrite Hbottom]; reflexivity.
Qed.

Lemma loadSkateboardModel_base_material_witness :
  exists model,
    modelRef (loadSkateboardModel (GLTFLoaded oneMeshDeck None) sceneReady)
      = Some model /\
    Material.opacity
      (materials (loadSkateboardModel (GLTFLoaded oneMeshDeck None) sceneReady)
                 (baseMaterial model)) = 0.
Proof.
  destruct (loadSkateboardModel_base_material (GLTFLoaded oneMeshDeck None)
              sceneReady) as (model & Href & _ & Hbase); [reflexivity|].
  exists model. split; [exact Href|].
  apply Hbase. left.
  assert (Hm : Some model = Some (mkLoadedModel (placeModel oneMeshDeck) 2 2 2))
    by (rewrite <- Href; reflexivity).
  injection Hm as ->. reflexivity.
Defined.





(** ** Teardown *)

(** X11. After the scene is torn down no key is held, and every operation
    refuses without touching anything but the error message: a tick leaves
    the state as it is, a model load reports "场景未初始化", a flip and a
    texture load report that no model is loaded. *)
Theorem cleanup_disables (st : State) (controlsUpdate : Camera.t -> Camera.t)
    (outcome : GLTFLoad) (axis : Axis) (isBGRAFormat isWebGPU upscaled : bool)
    (read : FileRead) (decode : Decode) (texture : TextureLoad) :
  keysPressed (cleanup st) = ∅ /\
  animate controlsUpdate (cleanup st) = cleanup st /\
  loadSkateboardModel outcome (cleanup st)
    = setError (Some "场景未初始化"%string) (cleanup st) /\
  flipModel axis (cleanup st)
    = setError (Some "请先加载滑板模型，再执行翻转操作"%string) (cleanup st) /\
  loadTopTexture isBGRAFormat isWebGPU upscaled read decode texture (cleanup st)
    = setError (Some "请先加载3D模型"%string) (cleanup st) /\
  loadBottomTexture isBGRAFormat read decode texture (cleanup st)
    = setError (Some "请先加载3D模型"%string) (cleanup st).
Proof.
  repeat split.
  unfold loadSkateboardModel, cleanup. simpl. by destruct (sceneRef st).
Qed.

(** ** More on flipping *)

Lemma flipObject_setTransform (axis : Axis) (model : Object3D) :
  exists q s, flipObject axis model = setTransform model (position model) q s.
Proof.
  unfold flipObject, applyMatrix4.
  destruct (Matrix4.decompose _) as [[p q] s]. by exists q, s.
Qed.

(** X12. A flip changes nothing but the model's rotation and scale fields:
    for every model, placed or not, the position is the one before, the
    tree, names, geometry and materials are untouched, and so are the
    scene, the camera, the material store and the held keys; the error
    message is cleared. *)
Theorem flipModel_only_transform (axis : Axis) (st : State) (m : LoadedModel) :
  modelRef st = Some m ->
  exists m',
    modelRef (flipModel axis st) = Some m' /\
    position (root m') = position (root m) /\
    id (root m') = id (root m) /\
    name (root m') = name (root m) /\
    isMesh (root m') = isMesh (root m) /\
    geometry (root m') = geometry (root m) /\
    children (root m') = children (root m) /\
    baseMaterial m' = baseMaterial m /\
    topStickerMaterial m' = topStickerMaterial m /\
    bottomStickerMaterial m' = bottomStickerMaterial m /\
    materials (flipModel axis st) = materials st /\
    sceneRef (flipModel axis st) = sceneRef st /\
    cameraRef (flipModel axis st) = cameraRef st /\
    keysPressed (flipModel axis st) = keysPressed st /\
    error (flipModel axis st) = None.
Proof.
  intros Hm. rewrite (flipModel_loaded axis st m Hm).
  destruct (flipObject_setTransform axis (root m)) as (q & s & Heq).
  eexists. split; [reflexivity|]. cbn [root baseMaterial topStickerMaterial
    bottomStickerMaterial]. rewrite Heq. repeat split.
Qed.

Lemma flipModel_only_transform_witness :
  exists m',
    modelRef (flipModel AxisZ deckLoaded) = Some m' /\
    position (root m') = Vector3.zero /\
    children (root m') = children deckGraph.
Proof.
  destruct (flipModel_only_transform AxisZ deckLoaded
              (mkLoadedModel deckGraph 2 3 4))
    as (m' & Href & Hpos & _ & _ & _ & _ & Hch & _); [reflexivity|].
  exists m'. split; [exact Href|]. split; [exact Hpos|exact Hch].
Defined.

Lemma compose_halfTurn (axis : Axis) (q : Quaternion.t) :
  Quaternion.lengthSq q = 1 ->
  Matrix4.makeRotationFromQuaternion (Quaternion.multiply q (halfTurn axis))
  = Matrix4.multiplyMatrices
      (Matrix4.makeRotationFromQuaternion q)
      (Matrix4.makeRotationFromQuaternion (halfTurn axis)).
Proof.
  destruct q as [x y z w]. unfold Quaternion.lengthSq. simpl. intros Hunit.
  destruct axis; apply Matrix4_eq; simpl; nsatz.
Qed.

(** X13. On a placed model one flip turns the orientation by half a turn
    about the model's own axis: the new rotation matrix is the old one
    multiplied on the right by the half turn about that axis. *)
Theorem flipObject_half_turn (axis : Axis) (model : Object3D) :
  wellPlaced model ->
  Matrix4.makeRotationFromQuaternion (quaternion (flipObject axis model))
  = Matrix4.multiplyMatrices
      (Matrix4.makeRotationFromQuaternion (quaternion model))
      (Matrix4.makeRotationFromQuaternion (halfTurn axis)).
Proof.
  intros Hwp. destruct (flipObject_once axis model Hwp) as (q' & -> & Hq').
  cbn [quaternion setTransform]. destruct Hwp as [Hunit _].
  rewrite <- (compose_halfTurn axis _ Hunit).
  unfold Matrix4.makeRotationFromQuaternion.
  destruct Hq' as [->| ->]; [done|apply compose_negate].
Qed.

Lemma deckGraph_wellPlaced : wellPlaced deckGraph.
Proof. split; [unfold Quaternion.lengthSq; simpl; ring|reflexivity]. Qed.

Lemma flipObject_half_turn_witness :
  Matrix4.makeRotationFromQuaternion (quaternion (flipObject AxisY deckGraph))
  = Matrix4.multiplyMatrices
      (Matrix4.makeRotationFromQuaternion Quaternion.identity)
      (Matrix4.makeRotationFromQuaternion (halfTurn AxisY)).
Proof.
  apply (flipObject_half_turn AxisY deckGraph).
  split; [unfold Quaternion.lengthSq; simpl; ring|reflexivity].
Defined.

Lemma flip_y_then_z (q : Quaternion.t) :
  Quaternion.multiply (Quaternion.multiply q (halfTurn AxisY)) (halfTurn AxisZ)
  = Quaternion.multiply q (halfTurn AxisX).
Proof. apply Quaternion_eq; simpl; ring. Qed.

Lemma flip_z_then_y (q : Quaternion.t) :
  Quaternion.multiply (Quaternion.multiply q (halfTurn AxisZ)) (halfTurn AxisY)
  = Quaternion.negate (Quaternion.multiply q (halfTurn AxisX)).
Proof. apply Quaternion_eq; simpl; ring. Qed.

Lemma flipObject_rotation (axis : Axis) (model : Object3D) :
  wellPlaced model ->
  Matrix4.makeRotationFromQuaternion (quaternion (flipObject axis model))
  = Matrix4.makeRotationFromQuaternion
      (Quaternion.multiply (quaternion model) (halfTurn axis)).
Proof.
  intros Hwp. destruct (flipObject_once axis model Hwp) as (q' & -> & Hq').
  cbn [quaternion setTransform]. unfold Matrix4.makeRotationFromQuaternion.
  destruct Hq' as [->| ->]; [done|apply compose_negate].
Qed.

Lemma makeRotation_multiply_sign (a b c : Quaternion.t) :
  a = b \/ a = Quaternion.negate b ->
  Matrix4.makeRotationFromQuaternion (Quaternion.multiply a c)
  = Matrix4.makeRotationFromQuaternion (Quaternion.multiply b c).
Proof.
  unfold Matrix4.makeRotationFromQuaternion.
  intros [->| ->]; [done|]. rewrite multiply_negate_l. apply compose_negate.
Qed.

(** X14. The two flip buttons commute: on a placed model, flipping about
    y and then about z gives the same orientation as flipping about z and
    then about y, namely that of a single flip about x. *)
Theorem flip_buttons_commute (model : Object3D) :
  wellPlaced model ->
  let yz := flipObject AxisZ (flipObject AxisY model) in
  let zy := flipObject AxisY (flipObject AxisZ model) in
  let x := flipObject AxisX model in
  Matrix4.makeRotationFromQuaternion (quaternion yz)
    = Matrix4.makeRotationFromQuaternion (quaternion x) /\
  Matrix4.makeRotationFromQuaternion (quaternion zy)
    = Matrix4.makeRotationFromQuaternion (quaternion x) /\
  position yz = position model /\ position zy = position model.
Proof.
  intros Hwp yz zy x. subst yz zy x.
  pose proof (flipObject_wellPlaced AxisY model Hwp) as HwpY.
  pose proof (flipObject_wellPlaced AxisZ model Hwp) as HwpZ.
  rewrite (flipObject_rotation AxisZ _ HwpY), (flipObject_rotation AxisY _ HwpZ),
    (flipObject_rotation AxisX _ Hwp).
  destruct (flipObject_once AxisY model Hwp) as (qy & Hy & Hqy).
  destruct (flipObject_once AxisZ model Hwp) as (qz & Hz & Hqz).
  repeat split.
  - rewrite Hy. cbn [quaternion setTransform].
    rewrite (makeRotation_multiply_sign _ _ _ Hqy). by rewrite flip_y_then_z.
  - rewrite Hz. cbn [quaternion setTransform].
    rewrite (makeRotation_multiply_sign _ _ _ Hqz). rewrite flip_z_then_y.
    apply compose_negate.
Qed.

Lemma flip_buttons_commute_witness :
  Matrix4.makeRotationFromQuaternion
    (quaternion (flipObject AxisZ (flipObject AxisY deckGraph)))
  = Matrix4.makeRotationFromQuaternion
      (quaternion (flipObject AxisY (flipObject AxisZ deckGraph))).
Proof.
  destruct (flip_buttons_commute deckGraph) as (Hyz & Hzy & _).
  - split; [unfold Quaternion.lengthSq; simpl; ring|reflexivity].
  - rewrite Hyz, Hzy. reflexivity.
Defined.

(** X15. A flip keeps a placed model placed: the quaternion stays of unit
    length and the scale stays 1, so flips can follow one another. *)
Theorem flipModel_keeps_placed (axis : Axis) (st : State) (m : LoadedModel) :
  modelRef st = Some m ->
  wellPlaced (root m) ->
  exists m', modelRef (flipModel axis st) = Some m' /\ wellPlaced (root m').
Proof.
  intros Hm Hwp. rewrite (flipModel_loaded axis st m Hm).
  eexists. split; [reflexivity|]. by apply flipObject_wellPlaced.
Qed.

Lemma flipModel_keeps_placed_witness :
  exists m', modelRef (flipModel AxisX deckLoaded) = Some m' /\
             wellPlaced (root m').
Proof.
  apply (flipModel_keeps_placed AxisX deckLoaded (mkLoadedModel deckGraph 2 3 4));
    [reflexivity|].
  split; [unfold Quaternion.lengthSq; simpl; ring|reflexivity].
Defined.

(** ** More on applying textures *)


(** X17. With separate sticker materials a bottom texture leaves the top
    material alone (and a top texture the bottom one); with one material
    shared by both sticker meshes, a bottom texture shows on the top
    surface too, with the bottom transform. *)
Theorem sticker_textures_isolated (isBGRAFormat isWebGPU : bool)
    (texture : Texture.t) (model : LoadedModel) (st : State) :
  modelRef st = Some model ->
  let afterBottom :=
    loadBottomTexture isBGRAFormat ReadDone Decoded (TextureLoaded texture) st in
  let afterTop :=
    loadTopTexture isBGRAFormat isWebGPU true ReadDone Decoded
                   (TextureLoaded texture) st in
  (topStickerMaterial model <> bottomStickerMaterial model ->
   materials afterBottom (topStickerMaterial model)
     = materials st (topStickerMaterial model) /\
   materials afterTop (bottomStickerMaterial model)
     = materials st (bottomStickerMaterial model)) /\
  (topStickerMaterial model = bottomStickerMaterial model ->
   Material.map (materials afterBottom (topStickerMaterial model))
     = Some (prepareTexture texture true)).
Proof.
  intros Hm afterBottom afterTop. subst afterBottom afterTop.
  unfold loadBottomTexture, loadTopTexture. rewrite Hm. split.
  - intros Hne. split.
    + destruct isBGRAFormat; by apply updateMaterial_other.
    + destruct isBGRAFormat, isWebGPU; by apply updateMaterial_other.
  - intros ->. destruct isBGRAFormat; apply loadTextureFromUrl_map.
Qed.

Lemma sticker_textures_isolated_witness :
  materials
    (loadBottomTexture false ReadDone Decoded (TextureLoaded freshTexture)
                       deckLoaded) 3%positive
  = plainMaterial.
Proof.
  destruct (sticker_textures_isolated false false freshTexture
              (mkLoadedModel deckGraph 2 3 4) deckLoaded) as [Hiso _];
    [reflexivity|].
  destruct Hiso as [Htop _]; [discriminate|]. exact Htop.
Defined.

(** X18. Whenever a bottom texture request fails at any stage (no model,
    file not read, BGRA image not decoded, no canvas, texture not loaded)
    no material changes and an error message is left. *)
Theorem loadBottomTexture_failure (isBGRAFormat : bool) (read : FileRead)
    (decode : Decode) (outcome : TextureLoad) (st : State) :
  modelRef st = None \/ read <> ReadDone \/
  (isBGRAFormat = true /\ decode <> Decoded) \/
  (exists err, outcome = TextureFailed err) ->
  materials (loadBottomTexture isBGRAFormat read decode outcome st)
    = materials st /\
  error (loadBottomTexture isBGRAFormat read decode outcome st) <> None.
Proof.
  intros H. unfold loadBottomTexture.
  destruct (modelRef st) as [model|]; [|done].
  destruct read; [done|done|].
  destruct H as [H|[H|[[-> H]|[err ->]]]]; try done.
  - destruct decode; done.
  - destruct isBGRAFormat; [destruct decode|]; done.
Qed.

Lemma loadBottomTexture_failure_witness :
  materials (loadBottomTexture true ReadDone ImageFailed
               (TextureLoaded freshTexture) deckLoaded)
  = materials deckLoaded.
Proof.
  apply (loadBottomTexture_failure true ReadDone ImageFailed
           (TextureLoaded freshTexture) deckLoaded).
  right. right. left. split; [reflexivity|discriminate].
Defined.

(** X19. Whenever a texture is applied to the top sticker surface, through
    the BGRA branch, the upscaled branch or the plain one, the renderer
    receives the matrix with rows (0, 1.01, -0.01), (-3.735, 0, 1),
    (0, 0, 1). *)
Theorem top_uvTransform_entries (isBGRAFormat isWebGPU : bool)
    (texture : Texture.t) (model : LoadedModel) (st : State) :
  modelRef st = Some model ->
  exists tex,
    Material.map
      (materials
         (loadTopTexture isBGRAFormat isWebGPU true ReadDone Decoded
                         (TextureLoaded texture) st)
         (topStickerMaterial model)) = Some tex /\
    Texture.uvTransform tex = Matrix3.mk 0 1.01 (-0.01)  (-3.735) 0 1  0 0 1.
Proof.
  intros Hm. exists (prepareTexture texture false). split.
  - unfold loadTopTexture. rewrite Hm.
    destruct isBGRAFormat, isWebGPU; apply loadTextureFromUrl_map.
  - rewrite prepareTexture_uvTransform, prepareTexture_top_matrix.
    unfold Matrix3.setUvTransform. rewrite cos_PI2, sin_PI2.
    f_equal; lra.
Qed.

Lemma top_uvTransform_entries_witness :
  exists tex,
    Material.map
      (materials
         (loadTopTexture false false true ReadDone Decoded
                         (TextureLoaded freshTexture) deckLoaded)
         3%positive) = Some tex /\
    Texture.uvTransform tex = Matrix3.mk 0 1.01 (-0.01)  (-3.735) 0 1  0 0 1.
Proof.
  apply (top_uvTransform_entries false false freshTexture
           (mkLoadedModel deckGraph 2 3 4) deckLoaded).
  reflexivity.
Defined.

(** ** More on mesh dimensions *)

Lemma round_bounds (r : R) :
  IZR (Int_part (r + / 2)) <= r + / 2 /\ r - / 2 < IZR (Int_part (r + / 2)).
Proof.
  destruct (base_Int_part (r + / 2)) as [H1 H2]. split; lra.
Qed.

Lemma toFixed2_error (x : R) : Rabs (toFixed2 x - x) <= 0.005.
Proof.
  unfold toFixed2. destruct (Rlt_dec x 0).
  - destruct (round_bounds (- x * 100)) as [H1 H2].
    apply Rabs_le. lra.
  - destruct (round_bounds (x * 100)) as [H1 H2].
    apply Rabs_le. lra.
Qed.

Lemma toFixed2_hundredths (x : R) : exists n : Z, toFixed2 x = IZR n / 100.
Proof.
  unfold toFixed2. destruct (Rlt_dec x 0).
  - exists (- Int_part (- x * 100 + / 2))%Z. rewrite opp_IZR. lra.
  - by eexists.
Qed.

Lemma toFixed2_nonneg (x : R) : 0 <= x -> 0 <= toFixed2 x.
Proof.
  intros Hx. unfold toFixed2. destruct (Rlt_dec x 0); [lra|].
  destruct (round_bounds (x * 100)) as [_ H2].
  assert (Hn : (-1 < Int_part (x * 100 + / 2))%Z) by (apply lt_IZR; lra).
  assert (0 <= IZR (Int_part (x * 100 + / 2))) by (apply IZR_le; lia).
  lra.
Qed.

Lemma toFixed2_0 : toFixed2 0 = 0.
Proof.
  unfold toFixed2. destruct (Rlt_dec 0 0); [lra|].
  destruct (round_bounds (0 * 100)) as [H1 H2].
  assert (Int_part (0 * 100 + / 2) = 0%Z) as ->.
  { assert (-1 < Int_part (0 * 100 + / 2) < 1)%Z; [|lia].
    split; apply lt_IZR; lra. }
  lra.
Qed.

(** X20. The width, height and depth returned are the box extents rounded
    to hundredths: each is a whole number of hundredths and differs from
    the true extent by at most 0.005. *)
Theorem getMeshDimensions_rounding (parentMatrixWorld : option Matrix4.t)
    (mesh : Object3D) :
  let size := Box3.getSize (setFromObject parentMatrixWorld mesh) in
  let d := getMeshDimensions parentMatrixWorld mesh in
  Rabs (width d - Vector3.x size) <= 0.005 /\
  Rabs (height d - Vector3.y size) <= 0.005 /\
  Rabs (depth d - Vector3.z size) <= 0.005 /\
  (exists n : Z, width d = IZR n / 100) /\
  (exists n : Z, height d = IZR n / 100) /\
  (exists n : Z, depth d = IZR n / 100).
Proof.
  simpl. repeat split; (apply toFixed2_error || apply toFixed2_hundredths).
Qed.

(** X21. A mesh without vertices and without children measures as zero:
    width, height and depth 0 and center (0, 0, 0), the empty box being
    reported as a point at the origin. *)
Theorem getMeshDimensions_empty (parentMatrixWorld : option Matrix4.t)
    (mesh : Object3D) :
  children mesh = [] ->
  geometry mesh = None \/ geometry mesh = Some [] ->
  getMeshDimensions parentMatrixWorld mesh
  = mkDimensions 0 0 0 Vector3.zero.
Proof.
  intros Hc Hg.
  assert (Hbox : setFromObject parentMatrixWorld mesh = Box3.Empty).
  { unfold setFromObject. destruct mesh as [i n m g mat p q s cs].
    simpl in *. subst cs. destruct Hg as [->| ->]; reflexivity. }
  unfold getMeshDimensions. rewrite Hbox. simpl. by rewrite toFixed2_0.
Qed.

Lemma getMeshDimensions_empty_witness :
  getMeshDimensions None (leaf 2 "base_mesh" true)
  = mkDimensions 0 0 0 Vector3.zero.
Proof.
  apply getMeshDimensions_empty; [reflexivity|right; reflexivity].
Defined.

Lemma expandByPoint_ordered (b : Box3.t) (p : Vector3.t) :
  orderedBox b -> orderedBox (Box3.expandByPoint b p).
Proof.
  destruct b as [|lo hi]; simpl.
  - intros _. repeat split; lra.
  - intros (Hx & Hy & Hz).
    repeat split.
    + pose proof (Rmin_l (Vector3.x lo) (Vector3.x p)).
      pose proof (Rmax_l (Vector3.x hi) (Vector3.x p)). lra.
    + pose proof (Rmin_l (Vector3.y lo) (Vector3.y p)).
      pose proof (Rmax_l (Vector3.y hi) (Vector3.y p)). lra.
    + pose proof (Rmin_l (Vector3.z lo) (Vector3.z p)).
      pose proof (Rmax_l (Vector3.z hi) (Vector3.z p)). lra.
Qed.

Lemma fold_expand_ordered (points : list Vector3.t) : forall b,
  orderedBox b -> orderedBox (fold_left Box3.expandByPoint points b).
Proof.
  induction points as [|p points IH]; intros b Hb; simpl; [done|].
  apply IH. by apply expandByPoint_ordered.
Qed.

Lemma setFromPoints_ordered (points : list Vector3.t) :
  orderedBox (Box3.setFromPoints points).
Proof. by apply fold_expand_ordered. Qed.

Lemma applyMatrix4_ordered (b : Box3.t) (m : Matrix4.t) :
  orderedBox (Box3.applyMatrix4 b m).
Proof. destruct b; [done|]. apply setFromPoints_ordered. Qed.

Lemma union_ordered (a b : Box3.t) :
  orderedBox a -> orderedBox b -> orderedBox (Box3.union a b).
Proof.
  destruct a as [|lo hi], b as [|lo' hi']; simpl; try done.
  intros (Hx & Hy & Hz) (Hx' & Hy' & Hz').
  repeat split.
  - pose proof (Rmin_l (Vector3.x lo) (Vector3.x lo')).
    pose proof (Rmax_l (Vector3.x hi) (Vector3.x hi')). lra.
  - pose proof (Rmin_l (Vector3.y lo) (Vector3.y lo')).
    pose proof (Rmax_l (Vector3.y hi) (Vector3.y hi')). lra.
  - pose proof (Rmin_l (Vector3.z lo) (Vector3.z lo')).
    pose proof (Rmax_l (Vector3.z hi) (Vector3.z hi')). lra.
Qed.

Lemma expandByObject_ordered (obj : Object3D) :
  forall parentMatrixWorld box,
    orderedBox box -> orderedBox (expandByObject parentMatrixWorld obj box).
Proof.
  induction obj as [i n m g mat p q sc cs IH] using Object3D_tree_ind.
  intros pmw box Hbox. simpl.
  set (W := updateWorldMatrix pmw _).
  assert (Hbox1 : orderedBox
            match g with
            | Some vertices =>
                Box3.union box (Box3.applyMatrix4 (computeBoundingBox vertices) W)
            | None => box
            end).
  { destruct g; [|done]. apply union_ordered; [done|apply applyMatrix4_ordered]. }
  revert Hbox1. generalize (match g with
            | Some vertices =>
                Box3.union box (Box3.applyMatrix4 (computeBoundingBox vertices) W)
            | None => box
            end).
  clear box Hbox. induction IH as [|c cs Hc _ IHcs]; intros b Hb; simpl; [done|].
  apply IHcs. by apply Hc.
Qed.

(** X22. For every mesh, with or without children, transformed in any
    way, the width, height and depth returned are never negative. *)
Theorem getMeshDimensions_nonneg (parentMatrixWorld : option Matrix4.t)
    (mesh : Object3D) :
  0 <= width (getMeshDimensions parentMatrixWorld mesh) /\
  0 <= height (getMeshDimensions parentMatrixWorld mesh) /\
  0 <= depth (getMeshDimensions parentMatrixWorld mesh).
Proof.
  unfold getMeshDimensions. cbn [width height depth].
  assert (H : orderedBox (setFromObject parentMatrixWorld mesh))
    by (by apply expandByObject_ordered).
  destruct (setFromObject parentMatrixWorld mesh) as [|lo hi]; simpl.
  - rewrite toFixed2_0. lra.
  - destruct H as (Hx & Hy & Hz).
    repeat split; apply toFixed2_nonneg; lra.
Qed.

Lemma expandByObject_unfold (parentMatrixWorld : option Matrix4.t)
    (obj : Object3D) (box : Box3.t) :
  expandByObject parentMatrixWorld obj box
  = expandFrom (updateWorldMatrix parentMatrixWorld obj)
               (geometry obj) (children obj) box.
Proof. by destruct obj. Qed.

Lemma shiftMatrix_affine (d : Vector3.t) (m : Matrix4.t) :
  Matrix4.affine m -> Matrix4.affine (shiftMatrix d m).
Proof. done. Qed.

Lemma multiply_shiftMatrix (d : Vector3.t) (w l : Matrix4.t) :
  Matrix4.affine l ->
  Matrix4.multiplyMatrices (shiftMatrix d w) l
  = shiftMatrix d (Matrix4.multiplyMatrices w l).
Proof.
  intros (H1 & H2 & H3 & H4).
  apply Matrix4_eq; simpl; rewrite ?H1, ?H2, ?H3, ?H4; ring.
Qed.

Lemma applyToVector3_shiftMatrix (d : Vector3.t) (m : Matrix4.t) (p : Vector3.t) :
  Matrix4.affine m ->
  Matrix4.applyToVector3 (shiftMatrix d m) p
  = Vector3.add (Matrix4.applyToVector3 m p) d.
Proof.
  intros (H1 & H2 & H3 & H4).
  apply Vector3_eq; simpl; rewrite H1, H2, H3, H4; field.
Qed.

Lemma applyMatrix4_shiftMatrix (b : Box3.t) (m : Matrix4.t) (d : Vector3.t) :
  Matrix4.affine m ->
  Box3.applyMatrix4 b (shiftMatrix d m)
  = Box3.translate (Box3.applyMatrix4 b m) d.
Proof.
  intros Hm. destruct b as [|lo hi]; [done|].
  unfold Box3.applyMatrix4.
  rewrite <- setFromPoints_shift. f_equal. cbn [map].
  repeat (apply (f_equal2 cons);
          [exact (applyToVector3_shiftMatrix d m (Vector3.mk _ _ _) Hm)|]).
  reflexivity.
Qed.

Lemma union_shift (a b : Box3.t) (d : Vector3.t) :
  Box3.union (Box3.translate a d) (Box3.translate b d)
  = Box3.translate (Box3.union a b) d.
Proof.
  destruct a as [|lo hi], b as [|lo' hi']; simpl; try done.
  by rewrite min_shift, max_shift.
Qed.

Lemma updateWorldMatrix_affine_some (w : Matrix4.t) (obj : Object3D) :
  Matrix4.affine w -> Matrix4.affine (updateWorldMatrix (Some w) obj).
Proof. intros Hw. by apply (updateWorldMatrix_affine (Some w)). Qed.

Lemma expandFrom_shift (d : Vector3.t) (w : Matrix4.t)
    (g : option (list Vector3.t)) (cs : list Object3D) (box : Box3.t) :
  Matrix4.affine w ->
  Forall (fun c => forall w' box',
            Matrix4.affine w' ->
            expandByObject (Some (shiftMatrix d w')) c (Box3.translate box' d)
            = Box3.translate (expandByObject (Some w') c box') d) cs ->
  expandFrom (shiftMatrix d w) g cs (Box3.translate box d)
  = Box3.translate (expandFrom w g cs box) d.
Proof.
  intros Hw Hcs. unfold expandFrom.
  assert (Hbox1 :
    match g with
    | Some vertices =>
        Box3.union (Box3.translate box d)
          (Box3.applyMatrix4 (computeBoundingBox vertices) (shiftMatrix d w))
    | None => Box3.translate box d
    end
    = Box3.translate
        match g with
        | Some vertices =>
            Box3.union box (Box3.applyMatrix4 (computeBoundingBox vertices) w)
        | None => box
        end d).
  { destruct g; [|done]. by rewrite applyMatrix4_shiftMatrix, union_shift. }
  rewrite Hbox1. clear Hbox1.
  generalize (match g with
              | Some vertices =>
                  Box3.union box
                    (Box3.applyMatrix4 (computeBoundingBox vertices) w)
              | None => box
              end).
  induction Hcs as [|c cs Hc _ IH]; intros b; simpl; [done|].
  rewrite Hc by done. apply IH.
Qed.

(** Shifting the parent's world matrix shifts everything measured below
    it. *)
Lemma expandByObject_shift (d : Vector3.t) (obj : Object3D) :
  forall w box,
    Matrix4.affine w ->
    expandByObject (Some (shiftMatrix d w)) obj (Box3.translate box d)
    = Box3.translate (expandByObject (Some w) obj box) d.
Proof.
  induction obj as [i n m g mat p q sc cs IH] using Object3D_tree_ind.
  intros w box Hw. rewrite !expandByObject_unfold.
  cbn [geometry children]. unfold updateWorldMatrix.
  rewrite multiply_shiftMatrix by apply compose_affine.
  apply expandFrom_shift; [|exact IH].
  apply multiplyMatrices_affine; [done|apply compose_affine].
Qed.

Lemma updateWorldMatrix_movePosition (parentMatrixWorld : option Matrix4.t)
    (v : Vector3.t) (obj : Object3D) :
  affineParent parentMatrixWorld ->
  updateWorldMatrix parentMatrixWorld (movePosition v obj)
  = shiftMatrix (worldDisplacement parentMatrixWorld v)
                (updateWorldMatrix parentMatrixWorld obj).
Proof.
  unfold updateWorldMatrix, movePosition, setPosition, setTransform.
  cbn [position quaternion scale].
  destruct parentMatrixWorld as [pw|]; simpl.
  - intros (H1 & H2 & H3 & H4).
    apply Matrix4_eq; simpl; rewrite ?H1, ?H2, ?H3, ?H4; ring.
  - intros _. apply Matrix4_eq; simpl; ring.
Qed.

Lemma setFromObject_movePosition (parentMatrixWorld : option Matrix4.t)
    (v : Vector3.t) (obj : Object3D) :
  affineParent parentMatrixWorld ->
  setFromObject parentMatrixWorld (movePosition v obj)
  = Box3.translate (setFromObject parentMatrixWorld obj)
                   (worldDisplacement parentMatrixWorld v).
Proof.
  intros Hp. unfold setFromObject. rewrite !expandByObject_unfold.
  rewrite (updateWorldMatrix_movePosition _ _ _ Hp).
  change (geometry (movePosition v obj)) with (geometry obj).
  change (children (movePosition v obj)) with (children obj).
  change Box3.makeEmpty
    with (Box3.translate Box3.Empty (worldDisplacement parentMatrixWorld v)) at 1.
  apply expandFrom_shift.
  - by apply updateWorldMatrix_affine.
  - apply Forall_forall. intros c _ w' box' Hw'. by apply expandByObject_shift.
Qed.

(** X23. Moving a mesh by changing its position, children and all, leaves
    width, height and depth as they were and moves the center by the
    displacement as the parent's world matrix carries it: by exactly [v]
    for a mesh without parent.  (A mesh that measures as the empty box
    keeps the center (0, 0, 0).) *)
Theorem getMeshDimensions_movePosition (parentMatrixWorld : option Matrix4.t)
    (v : Vector3.t) (mesh : Object3D) :
  affineParent parentMatrixWorld ->
  setFromObject parentMatrixWorld mesh <> Box3.Empty ->
  let before := getMeshDimensions parentMatrixWorld mesh in
  let after := getMeshDimensions parentMatrixWorld (movePosition v mesh) in
  width after = width before /\
  height after = height before /\
  depth after = depth before /\
  center after
    = Vector3.add (center before) (worldDisplacement parentMatrixWorld v).
Proof.
  intros Hp Hne before after. subst before after.
  unfold getMeshDimensions. cbn [width height depth center].
  rewrite (setFromObject_movePosition _ _ _ Hp).
  destruct (setFromObject parentMatrixWorld mesh) as [|lo hi]; [done|].
  cbn [Box3.translate Box3.getSize Box3.getCenter].
  repeat split.
  - f_equal. simpl. ring.
  - f_equal. simpl. ring.
  - f_equal. simpl. ring.
  - apply Vector3_eq; simpl; lra.
Qed.

Lemma getMeshDimensions_movePosition_witness :
  center (getMeshDimensions None (movePosition (Vector3.mk 1 0 0) scaledMesh))
  = Vector3.add (center (getMeshDimensions None scaledMesh)) (Vector3.mk 1 0 0).
Proof.
  apply (getMeshDimensions_movePosition None (Vector3.mk 1 0 0) scaledMesh).
  - exact I.
  - destruct (setFromObject_box None scaledMesh
                [Vector3.mk 0 0 0; Vector3.mk 1 1 1])
      as (lo & hi & H); [reflexivity | reflexivity | discriminate |].
    rewrite H. discriminate.
Defined.

(** ** The frame-time monitor *)

Lemma tail_length (l : list R) : length (tail l) = (length l - 1)%nat.
Proof. destruct l; simpl; lia. Qed.

Lemma last_tail (l : list R) : (2 <= length l)%nat -> last (tail l) = last l.
Proof. destruct l as [|a [|b l]]; simpl; [lia|lia|done]. Qed.

(** X24. The monitor's window never outgrows 60 samples: after an update
    it holds the newest sample last, it is the tail end of the old window
    with that sample appended, its length is the old length plus one
    capped at 60, and the clock reading is remembered. *)
Theorem update_window (now : R) (pm : PerformanceMonitor.t) :
  (length (PerformanceMonitor.frameTimes pm) <= 60)%nat ->
  let pm' := fst (PerformanceMonitor.update now pm) in
  let delta := now - PerformanceMonitor.lastTime pm in
  length (PerformanceMonitor.frameTimes pm')
    = Nat.min 60 (length (PerformanceMonitor.frameTimes pm) + 1) /\
  last (PerformanceMonitor.frameTimes pm') = Some delta /\
  PerformanceMonitor.frameTimes pm'
    `suffix_of` (PerformanceMonitor.frameTimes pm ++ [delta]) /\
  PerformanceMonitor.lastTime pm' = now /\
  PerformanceMonitor.renderTime pm' = delta.
Proof.
  intros Hlen pm' delta. subst pm' delta. unfold PerformanceMonitor.update.
  cbn [fst PerformanceMonitor.frameTimes PerformanceMonitor.lastTime
       PerformanceMonitor.renderTime].
  set (pushed := PerformanceMonitor.frameTimes pm
                 ++ [now - PerformanceMonitor.lastTime pm]).
  assert (Hpushed : length pushed
                    = (length (PerformanceMonitor.frameTimes pm) + 1)%nat)
    by (unfold pushed; rewrite length_app; reflexivity).
  assert (Hlast : last pushed = Some (now - PerformanceMonitor.lastTime pm))
    by (unfold pushed; apply last_snoc).
  destruct (60 <? length pushed)%nat eqn:Hfull.
  - apply Nat.ltb_lt in Hfull. repeat split.
    + rewrite tail_length. lia.
    + rewrite last_tail by lia. done.
    + destruct pushed as [|a rest]; [done|]. by exists [a].
  - apply Nat.ltb_ge in Hfull. repeat split; [lia|done..].
Qed.

Lemma update_window_witness :
  length (PerformanceMonitor.frameTimes
            (fst (PerformanceMonitor.update 16 (PerformanceMonitor.reset 0))))
  = 1%nat.
Proof.
  destruct (update_window 16 (PerformanceMonitor.reset 0)) as [Hlen _];
    [simpl; lia|].
  exact Hlen.
Defined.




(** X26. A tick at the very clock reading of the last reset has a frame
    time of zero and reports an infinite rate, not a number. *)
Theorem update_zero_frame_time (t : R) :
  PerformanceMonitor.fps
    (fst (PerformanceMonitor.update t (PerformanceMonitor.reset t)))
  = PositiveInfinity /\
  PerformanceMonitor.frameTimes
    (fst (PerformanceMonitor.update t (PerformanceMonitor.reset t)))
  = [0].
Proof.
  unfold PerformanceMonitor.update, PerformanceMonitor.reset. simpl.
  replace (t - t) with 0 by ring. split; [|reflexivity].
  unfold PerformanceMonitor.total. simpl.
  destruct (Req_dec_T ((0 + 0) / 1) 0) as [|Hne]; [done|].
  exfalso. apply Hne. lra.
Qed.

(** ** More on pixel buffers *)

Lemma swapBR_lookup_other (data : list Byte.byte) (i k : nat) :
  k <> i -> k <> (i + 2)%nat ->
  PixelBuffer.swapBR data i !! k = data !! k.
Proof.
  intros H1 H2. unfold PixelBuffer.swapBR, PixelBuffer.arraySet.
  by rewrite !list_lookup_insert_ne by lia.
Qed.

Ltac rem4 k :=
  let Hdiv := fresh "Hdiv" in
  let Hrem := fresh "Hrem" in
  pose proof (Nat.div_mod_eq k 4) as Hdiv;
  pose proof (Nat.mod_upper_bound k 4 ltac:(lia)) as Hrem.

Lemma swapLoop_odd_offsets fuel : forall i (data : list Byte.byte) k,
  (i mod 4 = 0)%nat -> (k mod 4 = 1 \/ k mod 4 = 3)%nat ->
  PixelBuffer.swapLoop fuel i data !! k = data !! k.
Proof.
  induction fuel as [|fuel IH]; intros i data k Hi Hk; simpl; [done|].
  case_decide; [|done].
  rem4 i. rem4 k. rem4 (i + 4)%nat.
  rewrite IH by lia. apply swapBR_lookup_other; lia.
Qed.

(** X27. For a buffer of any length the conversion returns a buffer of
    the same length, and the green and alpha bytes (offsets 1 and 3 of
    every pixel) are where they were. *)
Theorem convertBGRAtoRGBA_in_place (data : list Byte.byte) :
  length (PixelBuffer.convertBGRAtoRGBA data) = length data /\
  forall k, (k mod 4 = 1 \/ k mod 4 = 3)%nat ->
            PixelBuffer.convertBGRAtoRGBA data !! k = data !! k.
Proof.
  split.
  - apply swapLoop_length.
  - intros k Hk. by apply swapLoop_odd_offsets.
Qed.
